(** * SEGM predictor: post-processing pipeline of [segm/predictor.py]

    A shallow embedding of the prediction post-processing code
    ([mask_preprocess], [get_contours_from_mask], [rescale_contours],
    [contour2bbox], [reduce_contours_dims], [get_contours_from_predictions]
    and [SegmPredictor.__call__]) together with the properties of it that
    the specification states.

    Numbers are modelled as the code has them: contours are the [int32]
    arrays OpenCV returns, scale factors are Python floats (IEEE binary64,
    through the Standard Library's [SpecFloat]), contour areas are exact
    rationals, Python ints are [Z]. *)

From Stdlib Require Import ZArith List String Bool Lia QArith Qabs Lqa.
From Stdlib Require Import Floats.SpecFloat.
Import ListNotations.
Open Scope Z_scope.
Set Warnings "-register-all".

(** ** Exceptions and the error monad *)

Inductive exn : Type :=
| ZeroDivisionError
| OverflowError
| IndexError
| KeyError
| ValueError
| AttributeError
| Exception (msg : string)
| CollaboratorError (name : string).

Inductive outcome (A : Type) : Type :=
| Ok (a : A)
| Raise (e : exn).

Arguments Ok {A} a.
Arguments Raise {A} e.

Definition bind {A B : Type} (c : outcome A) (k : A -> outcome B) : outcome B :=
  match c with
  | Ok a => k a
  | Raise e => Raise e
  end.

Notation "x <- c ;; k" := (bind c (fun x => k))
  (at level 61, c at next level, right associativity).
Notation "' pat <- c ;; k" := (bind c (fun x => match x with pat => k end))
  (at level 61, pat pattern, c at next level, right associativity).

(** ** IEEE binary64: Python floats and numpy [float64] *)

Module F64.

Definition prec : Z := 53.
Definition emax : Z := 1024.

Definition f64 : Type := spec_float.

Definition one : f64 := SFone prec emax.
Definition mul : f64 -> f64 -> f64 := SFmul prec emax.

(** An [int32] array element converted to [float64] (always exact). *)
Definition of_int32 (x : Z) : f64 := binary_normalize prec emax x 0 false.

(** A Python int as an unrounded significand with exponent 0. *)
Definition raw_int (n : Z) : f64 :=
  match n with
  | Z0 => S754_zero false
  | Zpos p => S754_finite false p 0
  | Zneg p => S754_finite true p 0
  end.

(** Python's [a / b] on ints: the correctly rounded quotient. *)
Definition int_true_divide (a b : Z) : outcome f64 :=
  if b =? 0 then Raise ZeroDivisionError
  else match SFdiv prec emax (raw_int a) (raw_int b) with
       | S754_infinity _ => Raise OverflowError
       | q => Ok q
       end.

(** Truncation toward zero of a finite float. *)
Definition trunc (f : f64) : option Z :=
  match f with
  | S754_zero _ => Some 0
  | S754_finite s m e => Some (cond_Zopp s (Z.shiftl (Zpos m) e))
  | S754_infinity _ | S754_nan => None
  end.

Definition int32_min : Z := - 2 ^ 31.
Definition int32_max : Z := 2 ^ 31 - 1.
Definition is_int32 (x : Z) : Prop := int32_min <= x <= int32_max.
Definition in_int32 (x : Z) : bool := (int32_min <=? x) && (x <=? int32_max).

(** Storing a [float64] into an [int32] array (numpy's unsafe cast of
    [a[...] = values]): the value is truncated toward zero.  What is stored
    for a value that does not fit (or is not finite) depends on the
    platform, and is given by [unrepresentable]. *)
Definition cast_int32 (unrepresentable : f64 -> Z) (f : f64) : Z :=
  match trunc f with
  | Some z => if in_int32 z then z else unrepresentable f
  | None => unrepresentable f
  end.

(** Python's and torch's [a > b] on floats. *)
Definition gt (a b : f64) : bool := SFltb b a.

End F64.

(** ** Contours and the OpenCV functions the code calls on them *)

(** A contour is the [(N, 1, 2)] [int32] array of OpenCV: a sequence of
    points [[x, y]]. *)
Definition point : Type := (Z * Z)%type.
Definition contour : Type := list point.

Definition px (p : point) : Z := fst p.
Definition py (p : point) : Z := snd p.

Module Cv2.

(** [cv2.boundingRect] on an integer point set: the up-right rectangle
    [(x, y, w, h)] with [x], [y] the least coordinates and [w], [h] the
    extents counted in pixels, [max - min + 1]; the empty point set has the
    empty rectangle. *)
Fixpoint min_max (f : point -> Z) (lo hi : Z) (pts : contour) : Z * Z :=
  match pts with
  | [] => (lo, hi)
  | p :: rest => min_max f (Z.min lo (f p)) (Z.max hi (f p)) rest
  end.

Definition boundingRect (c : contour) : Z * Z * Z * Z :=
  match c with
  | [] => (0, 0, 0, 0)
  | p :: rest =>
      let '(xmin, xmax) := min_max px (px p) (px p) rest in
      let '(ymin, ymax) := min_max py (py p) (py p) rest in
      (xmin, ymin, xmax - xmin + 1, ymax - ymin + 1)
  end.

(** [cv2.contourArea] (not oriented): Green's formula over the closed
    polygon, starting from the last point. *)
Fixpoint green_sum (prev : point) (pts : contour) : Z :=
  match pts with
  | [] => 0
  | p :: rest => px prev * py p - py prev * px p + green_sum p rest
  end.

Definition contourArea (c : contour) : Q :=
  match c with
  | [] => 0%Q
  | p :: _ => Qabs (inject_Z (green_sum (last c p) c) * (1 # 2))
  end.

End Cv2.

(** ** The functions of [segm/predictor.py] *)

Definition bbox_t : Type := (Z * Z * Z * Z)%type.

(** [contour2bbox]. *)
Definition contour2bbox (c : contour) : bbox_t :=
  let '(x, y, w, h) := Cv2.boundingRect c in
  (x, y, x + w, y + h).

(** A probability map is a 2-D tensor of floats, a mask a 2-D array of
    booleans, both as lists of rows. *)
Definition prob_map : Type := list (list F64.f64).
Definition mask_t : Type := list (list bool).

(** [mask_preprocess]: [pred > threshold], element by element ([threshold]
    is the scalar as torch compares it, in the tensor's own format). *)
Definition mask_preprocess (pred : prob_map) (threshold : F64.f64) : mask_t :=
  map (map (fun p => F64.gt p threshold)) pred.

(** [mask.astype(np.uint8)]. *)
Definition astype_uint8 (mask : mask_t) : list (list Z) :=
  map (map Z.b2z) mask.

(** Entry [i][j] of a 2-D array. *)
Definition pixel {A : Type} (a : list (list A)) (i j : nat) : option A :=
  match nth_error a i with
  | Some row => nth_error row j
  | None => None
  end.

(** Class parameters: [class_params['postprocess']['threshold']] and
    [class_params['postprocess']['min_area']]. *)
Record postprocess_params : Type := {
  threshold : F64.f64;
  min_area : Q
}.

Record class_params : Type := {
  postprocess : postprocess_params
}.

(** [reduce_contours_dims]: every point [[[x, y]]] becomes the list
    [[int(x), int(y)]]; [int] of a numpy [int32] is that integer. *)
Definition py_int (x : Z) : Z := x.

Definition reduce_contours_dims (contours : list contour) : list contour :=
  map (fun c => map (fun i => (py_int (px i), py_int (py i))) c) contours.

Section Pipeline.

(** [cv2.findContours(image, cv2.RETR_LIST, cv2.CHAIN_APPROX_SIMPLE)],
    OpenCV's border following. *)
Variable findContours : list (list Z) -> list contour.

(** What the platform stores when a float that does not fit is written to
    an [int32] array. *)
Variable unrepresentable : F64.f64 -> Z.

(** The loop of [get_contours_from_mask], with [contour_list] as the
    accumulator. *)
Fixpoint filter_loop (min_area : Q) (contours contour_list : list contour)
  : list contour :=
  match contours with
  | [] => contour_list
  | c :: rest =>
      if Qle_bool min_area (Cv2.contourArea c)
      then filter_loop min_area rest (contour_list ++ [c])
      else filter_loop min_area rest contour_list
  end.

Definition get_contours_from_mask (mask : mask_t) (min_area : Q)
  : list contour :=
  let contours := findContours (astype_uint8 mask) in
  filter_loop min_area contours [].

(** [contour[:, :, i] = contour[:, :, i] * scale[i]]: column [i] of the
    [int32] array is multiplied by a Python float, which gives a [float64]
    array, and written back into the [int32] array. *)
Definition scale_column (i : nat) (s : F64.f64) (c : contour) : contour :=
  map (fun p =>
         match i with
         | O => (F64.cast_int32 unrepresentable (F64.mul (F64.of_int32 (px p)) s), py p)
         | _ => (px p, F64.cast_int32 unrepresentable (F64.mul (F64.of_int32 (py p)) s))
         end) c.

Definition rescale_contours (contours : list contour)
    (pred_height pred_width image_height image_width : Z)
  : outcome (list contour) :=
  y_ratio <- F64.int_true_divide image_height pred_height ;;
  x_ratio <- F64.int_true_divide image_width pred_width ;;
  let scale := (x_ratio, y_ratio) in
  Ok (map (fun c => scale_column 1 (snd scale) (scale_column 0 (fst scale) c))
          contours).

Definition get_contours_from_predictions (pred : prob_map)
    (params : class_params)
    (pred_height pred_width image_height image_width : Z)
  : outcome (list contour * list bbox_t) :=
  let pred := mask_preprocess pred (threshold (postprocess params)) in
  let contours := get_contours_from_mask pred (min_area (postprocess params)) in
  contours <- rescale_contours contours pred_height pred_width
                               image_height image_width ;;
  let bboxes := map contour2bbox contours in
  let contours := reduce_contours_dims contours in
  Ok (contours, bboxes).

End Pipeline.

(** ** [SegmPredictor.__call__] *)

(** A numpy array: its shape and its flat buffer. *)
Record ndarray : Type := {
  shape : list Z;
  buffer : list Z
}.

(** The values the entry point can be called with: an array, a list, a
    tuple, or any other object (with the text [type(images)] prints as). *)
Inductive pyobj : Type :=
| PyNdarray (a : ndarray)
| PyList (items : list pyobj)
| PyTuple (items : list pyobj)
| PyObject (type_repr : string).

Record prediction : Type := {
  polygon : contour;
  bbox : bbox_t;
  class_name : string
}.

Record image_info : Type := {
  height : Z;
  width : Z
}.

Record image_prediction : Type := {
  image : image_info;
  predictions : list prediction
}.

(** [pred_data]: one dict for one input image, a list of dicts for a list. *)
Inductive result : Type :=
| One (p : image_prediction)
| Many (ps : list image_prediction).

(** The configuration: [cls2params], from [config.get_classes()], is a dict,
    kept in insertion order; [image_height] and [image_width] are
    [config.get_image('height')] and [config.get_image('width')], the
    resolution the model predicts at. *)
Record config : Type := {
  cls2params : list (string * class_params);
  image_height : Z;
  image_width : Z
}.

Definition input_kind_message (type_repr : string) : string :=
  ("Input must contain np.ndarray, tuple or list, found " ++ type_repr ++ ".")%string.

(** The dispatch on the kind of input, lines 115-122: the list of images
    and [one_image]. *)
Definition check_input (images : pyobj) : outcome (list pyobj * bool) :=
  match images with
  | PyList items => Ok (items, false)
  | PyTuple items => Ok (items, false)
  | PyNdarray a => Ok ([PyNdarray a], true)
  | PyObject type_repr => Raise (Exception (input_kind_message type_repr))
  end.

(** [img_h, img_w = image.shape[:2]]: an array of fewer than two dimensions
    does not unpack; an object that is not an array is taken to have no
    [shape]. *)
Definition shape_hw (image : pyobj) : outcome (Z * Z) :=
  match image with
  | PyNdarray a =>
      match shape a with
      | h :: w :: _ => Ok (h, w)
      | _ => Raise ValueError
      end
  | _ => Raise AttributeError
  end.

(** [pred[cls_idx]] on a tensor, [cls_idx >= 0]. *)
Definition tensor_getitem {A : Type} (t : list A) (idx : nat) : outcome A :=
  match nth_error t idx with
  | Some x => Ok x
  | None => Raise IndexError
  end.

(** [d[key]] on a dict. *)
Fixpoint dict_getitem {V : Type} (d : list (string * V)) (key : string)
  : outcome V :=
  match d with
  | [] => Raise KeyError
  | (k, v) :: rest => if String.eqb k key then Ok v else dict_getitem rest key
  end.

(** [enumerate(d)] on a dict: its keys, numbered from [start]. *)
Fixpoint enumerate_keys {V : Type} (start : nat) (d : list (string * V))
  : list (nat * string) :=
  match d with
  | [] => []
  | (k, _) :: rest => (start, k) :: enumerate_keys (S start) rest
  end.

Section Predictor.

Variable findContours : list (list Z) -> list contour.
Variable unrepresentable : F64.f64 -> Z.

(** [predict(self.transforms(images), self.model, self.device)]: the batch
    of per-class probability maps, one entry per image. *)
Variable forward : list pyobj -> outcome (list (list prob_map)).

Variable cfg : config.

(** The innermost loop: one record appended per (contour, bbox) pair. *)
Fixpoint append_records (cls_name : string)
    (pairs : list (contour * bbox_t)) (preds : list prediction)
  : list prediction :=
  match pairs with
  | [] => preds
  | (c, b) :: rest =>
      append_records cls_name rest
        (preds ++ [{| polygon := c; bbox := b; class_name := cls_name |}])
  end.

(** The loop over classes for one image. *)
Fixpoint class_loop (pred : list prob_map) (img_h img_w : Z)
    (classes : list (nat * string)) (preds : list prediction)
  : outcome (list prediction) :=
  match classes with
  | [] => Ok preds
  | (cls_idx, cls_name) :: rest =>
      p <- tensor_getitem pred cls_idx ;;
      params <- dict_getitem (cls2params cfg) cls_name ;;
      ' (contours, bboxes) <-
        get_contours_from_predictions findContours unrepresentable
          p params (image_height cfg) (image_width cfg) img_h img_w ;;
      class_loop pred img_h img_w rest
        (append_records cls_name (combine contours bboxes) preds)
  end.

(** The loop over [zip(images, preds)]. *)
Fixpoint image_loop (pairs : list (pyobj * list prob_map))
    (pred_data : list image_prediction)
  : outcome (list image_prediction) :=
  match pairs with
  | [] => Ok pred_data
  | (img, pred) :: rest =>
      ' (img_h, img_w) <- shape_hw img ;;
      preds <- class_loop pred img_h img_w
                 (enumerate_keys 0 (cls2params cfg)) [] ;;
      image_loop rest
        (pred_data ++ [{| image := {| height := img_h; width := img_w |};
                          predictions := preds |}])
  end.

(** Lines 127-153: the assembly of [pred_data] from the images and the
    model's output. *)
Definition assemble (images : list pyobj) (preds : list (list prob_map))
  : outcome (list image_prediction) :=
  image_loop (combine images preds) [].

Definition call (images : pyobj) : outcome result :=
  ' (images, one_image) <- check_input images ;;
  preds <- forward images ;;
  pred_data <- assemble images preds ;;
  if (one_image : bool)
  then match pred_data with
       | p :: _ => Ok (One p)
       | [] => Raise IndexError
       end
  else Ok (Many pred_data).

End Predictor.

(** ** The claims of the specification, in the specification's words *)


(** A contour whose coordinates are floats, and its scaling without any
    rounding to integers, as section 4.2 words it. *)
Definition float_point : Type := (F64.f64 * F64.f64)%type.
Definition float_contour : Type := list float_point.

Definition scale_exactly (x_scale y_scale : F64.f64) (c : contour)
  : float_contour :=
  map (fun p => (F64.mul (F64.of_int32 (px p)) x_scale,
                 F64.mul (F64.of_int32 (py p)) y_scale)) c.

Definition fmin (a b : F64.f64) : F64.f64 := if F64.gt a b then b else a.

(** The near corner [(x_min, y_min) = (min(x), min(y))] of the bounding box
    of a float contour, and the near corner of a box returned by the code.
    (The far corner is the matter of section 4.3 alone and is left aside
    here.) *)
Definition float_near_corner (c : float_contour) : F64.f64 * F64.f64 :=
  match c with
  | [] => (S754_zero false, S754_zero false)
  | p :: rest =>
      (fold_right fmin (fst p) (map fst rest),
       fold_right fmin (snd p) (map snd rest))
  end.

Definition near_corner_as_float (b : bbox_t) : F64.f64 * F64.f64 :=
  let '(x0, y0, _, _) := b in
  (F64.of_int32 x0, F64.of_int32 y0).

(** Sections 4.2 and 4.4 (steps 3 to 5): every bounding box the class
    postprocessor returns is the bounding box of the scaled contour before
    any truncation; in particular it starts at that contour's least
    coordinates. *)
Definition bbox_of_float_contour_claim
    (findContours : list (list Z) -> list contour)
    (unrepresentable : F64.f64 -> Z)
    (pred : prob_map) (params : class_params)
    (pred_height pred_width image_height image_width : Z) : Prop :=
  forall polys boxes x_scale y_scale,
    get_contours_from_predictions findContours unrepresentable pred params
      pred_height pred_width image_height image_width = Ok (polys, boxes) ->
    F64.int_true_divide image_width pred_width = Ok x_scale ->
    F64.int_true_divide image_height pred_height = Ok y_scale ->
    map near_corner_as_float boxes =
    map (fun c => float_near_corner (scale_exactly x_scale y_scale c))
        (get_contours_from_mask findContours
           (mask_preprocess pred (threshold (postprocess params)))
           (min_area (postprocess params))).

(** Sections 4.5 and 7: the input is one raw image or a sequence of raw
    images. *)
Definition is_raw_image (o : pyobj) : bool :=
  match o with
  | PyNdarray _ => true
  | _ => false
  end.

Definition valid_input_kind (o : pyobj) : bool :=
  match o with
  | PyNdarray _ => true
  | PyList items | PyTuple items => forallb is_raw_image items
  | PyObject _ => false
  end.

Definition raises_input_kind_error {A : Type} (r : outcome A) : bool :=
  match r with
  | Raise (Exception _) => true
  | _ => false
  end.

(** Section 4.5, the assembler as a map in input order: the records of one
    class, of all classes of one image in configuration order, and of all
    images in input order; the first error aborts. *)
Fixpoint concat_in_order {A B : Type} (f : A -> outcome (list B))
    (xs : list A) : outcome (list B) :=
  match xs with
  | [] => Ok []
  | x :: rest =>
      ys <- f x ;;
      more <- concat_in_order f rest ;;
      Ok (ys ++ more)
  end.

Fixpoint each_in_order {A B : Type} (f : A -> outcome B) (xs : list A)
  : outcome (list B) :=
  match xs with
  | [] => Ok []
  | x :: rest =>
      y <- f x ;;
      more <- each_in_order f rest ;;
      Ok (y :: more)
  end.

Section AssemblerSpec.

Variable findContours : list (list Z) -> list contour.
Variable unrepresentable : F64.f64 -> Z.
Variable cfg : config.

Definition class_records (pred : list prob_map) (img_h img_w : Z)
    (cls : nat * string) : outcome (list prediction) :=
  p <- tensor_getitem pred (fst cls) ;;
  params <- dict_getitem (cls2params cfg) (snd cls) ;;
  ' (contours, bboxes) <-
    get_contours_from_predictions findContours unrepresentable
      p params (image_height cfg) (image_width cfg) img_h img_w ;;
  Ok (map (fun cb => {| polygon := fst cb; bbox := snd cb;
                        class_name := snd cls |})
          (combine contours bboxes)).

Definition image_record (pair : pyobj * list prob_map)
  : outcome image_prediction :=
  ' (img_h, img_w) <- shape_hw (fst pair) ;;
  preds <- concat_in_order (class_records (snd pair) img_h img_w)
             (enumerate_keys 0 (cls2params cfg)) ;;
  Ok {| image := {| height := img_h; width := img_w |};
        predictions := preds |}.

End AssemblerSpec.

(** ** Notions used to state the properties *)

(** A contour as an [int32] array holds it. *)
Definition int32_contour (c : contour) : Prop :=
  Forall (fun p => F64.is_int32 (px p) /\ F64.is_int32 (py p)) c.

(** [m] is the least (greatest) value of the coordinate [f] over [c]. *)
Definition least (f : point -> Z) (c : contour) (m : Z) : Prop :=
  (exists p, In p c /\ f p = m) /\ forall p, In p c -> m <= f p.

Definition greatest (f : point -> Z) (c : contour) (m : Z) : Prop :=
  (exists p, In p c /\ f p = m) /\ forall p, In p c -> f p <= m.

(** The test of the area filter. *)
Definition area_at_least (min_area : Q) (c : contour) : bool :=
  Qle_bool min_area (Cv2.contourArea c).

(** A contour scaled and stored back into its [int32] array: both
    coordinates of every point truncated toward zero. *)
Definition truncate_scaled (unrepresentable : F64.f64 -> Z)
    (x_scale y_scale : F64.f64) (c : contour) : contour :=
  map (fun p =>
         (F64.cast_int32 unrepresentable (F64.mul (F64.of_int32 (px p)) x_scale),
          F64.cast_int32 unrepresentable (F64.mul (F64.of_int32 (py p)) y_scale)))
      c.

(** The result for one image, seen as the one-element sequence. *)
Definition as_sequence (r : result) : result :=
  match r with
  | One p => Many [p]
  | Many ps => Many ps
  end.


(** Section 7, InvalidInputKind: the entry point raises its input-kind error
    exactly on the inputs that are neither one raw image nor a sequence of
    raw images. *)
Definition input_kind_claim
    (findContours : list (list Z) -> list contour)
    (unrepresentable : F64.f64 -> Z)
    (forward : list pyobj -> outcome (list (list prob_map)))
    (cfg : config) (images : pyobj) : Prop :=
  raises_input_kind_error
    (call findContours unrepresentable forward cfg images) =
  negb (valid_input_kind images).

(** ** Concrete inputs: the scenario of section 8 *)

(** The 4x4 square of foreground pixels at offset (2, 2), as OpenCV traces
    it: pixels 2..5 in both directions, corners only. *)
Definition square : contour := [(2, 2); (2, 5); (5, 5); (5, 2)].

Definition half : F64.f64 := S754_finite false 4503599627370496 (-53).
Definition zero : F64.f64 := S754_zero false.

Definition blob_row (inside : bool) (j : nat) : F64.f64 :=
  if inside && (2 <=? j)%nat && (j <=? 5)%nat then F64.one else zero.

(** The 10x10 probability map that is 1.0 on the square and 0.0 elsewhere. *)
Definition blob_map : prob_map :=
  map (fun i => map (blob_row ((2 <=? i)%nat && (i <=? 5)%nat)) (seq 0 10))
      (seq 0 10).

Definition blob_image : list (list Z) :=
  astype_uint8 (mask_preprocess blob_map half).

(** A stand-in for OpenCV's [findContours]: on [blob_image] it finds the
    square, as OpenCV does; elsewhere it finds nothing, as OpenCV does on an
    image without foreground. *)
Definition findContours_blob (img : list (list Z)) : list contour :=
  if list_eq_dec (list_eq_dec Z.eq_dec) img blob_image then [square] else [].

(** An x86 conversion stores the least [int32] for what does not fit. *)
Definition unrepresentable_x86 (f : F64.f64) : Z := F64.int32_min.

Definition field_params : class_params :=
  {| postprocess := {| threshold := half; min_area := 5 |} |}.

Definition field_config : config :=
  {| cls2params := [("field"%string, field_params)];
     image_height := 10;
     image_width := 10 |}.

(** A 20x20 BGR image. *)
Definition image_20x20 : ndarray :=
  {| shape := [20; 20; 3]; buffer := repeat 0 1200 |}.

(** A model that answers every image with [channels] copies of [blob_map]. *)
Definition forward_blob (channels : nat) (images : list pyobj)
  : outcome (list (list prob_map)) :=
  Ok (map (fun _ => repeat blob_map channels) images).

(** ** Further notions used to state properties *)


(** A point lies within a box, edges included. *)
Definition inside (b : bbox_t) (p : point) : Prop :=
  let '(x_min, y_min, x_max, y_max) := b in
  x_min <= px p <= x_max /\ y_min <= py p <= y_max.

(** A contour moved by [(dx, dy)], and a box moved likewise. *)
Definition translate (dx dy : Z) (c : contour) : contour :=
  map (fun p => (px p + dx, py p + dy)) c.

Definition translate_bbox (dx dy : Z) (b : bbox_t) : bbox_t :=
  let '(x_min, y_min, x_max, y_max) := b in
  (x_min + dx, y_min + dy, x_max + dx, y_max + dy).

(** A contour with every coordinate multiplied by an integer factor. *)
Definition stretch (kx ky : Z) (c : contour) : contour :=
  map (fun p => (kx * px p, ky * py p)) c.


(** ** The functions of [utils/utils.py] *)

(** *** [load_pretrain_model] *)

(** A tensor: its shape and its values.  A state dict maps parameter names
    to tensors, in insertion order. *)
Record tensor : Type := {
  tensor_shape : list Z;
  tensor_data : list F64.f64
}.

Definition state_dict : Type := list (string * tensor).

(** [key in d]. *)
Fixpoint dict_contains {V : Type} (d : list (string * V)) (key : string)
  : bool :=
  match d with
  | [] => false
  | (k, _) :: rest => if String.eqb k key then true else dict_contains rest key
  end.

(** [d[key] = v]: the value of an existing key is replaced in place, a new
    key is added at the end. *)
Fixpoint dict_setitem {V : Type} (d : list (string * V)) (key : string)
    (v : V) : list (string * V) :=
  match d with
  | [] => [(key, v)]
  | (k, x) :: rest =>
      if String.eqb k key then (k, v) :: rest
      else (k, x) :: dict_setitem rest key v
  end.

(** [a.shape == b.shape]. *)
Definition shape_eqb (s1 s2 : list Z) : bool :=
  if list_eq_dec Z.eq_dec s1 s2 then true else false.

(** ['Weights {} were not loaded'.format(key)]. *)
Definition not_loaded_message (key : string) : string :=
  ("Weights " ++ key ++ " were not loaded")%string.

(** The loop over [new_dict.items()]: [new_dict] is updated in place while
    its items are visited; [printed] collects the lines printed. *)
Fixpoint load_loop (old_dict : state_dict) (items : list (string * tensor))
    (new_dict : state_dict) (printed : list string)
  : outcome (state_dict * list string) :=
  match items with
  | [] => Ok (new_dict, printed)
  | (key, weights) :: rest =>
      if dict_contains old_dict key then
        mine <- dict_getitem new_dict key ;;
        theirs <- dict_getitem old_dict key ;;
        if shape_eqb (tensor_shape mine) (tensor_shape theirs) then
          value <- dict_getitem old_dict key ;;
          load_loop old_dict rest (dict_setitem new_dict key value) printed
        else
          load_loop old_dict rest new_dict
            (printed ++ [not_loaded_message key])
      else
        load_loop old_dict rest new_dict (printed ++ [not_loaded_message key])
  end.

(** [load_pretrain_model], from the checkpoint read by [torch.load] and
    [model.state_dict()]: the dict returned and the lines printed. *)
Definition load_pretrain_model (old_dict new_dict : state_dict)
  : outcome (state_dict * list string) :=
  load_loop old_dict new_dict new_dict [].

(** Whether the parameter [(key, weights)] of the model is taken from the
    checkpoint, and the tensor it ends with. *)
Definition is_loaded (old_dict : state_dict) (kv : string * tensor) : bool :=
  match dict_getitem old_dict (fst kv) with
  | Ok theirs => shape_eqb (tensor_shape (snd kv)) (tensor_shape theirs)
  | Raise _ => false
  end.

Definition loaded_value (old_dict : state_dict) (kv : string * tensor)
  : tensor :=
  match dict_getitem old_dict (fst kv) with
  | Ok theirs =>
      if shape_eqb (tensor_shape (snd kv)) (tensor_shape theirs)
      then theirs else snd kv
  | Raise _ => snd kv
  end.

(** *** [FilesLimitControl] *)

(** The file system as [os.path.exists] and [os.remove] see it: what a path
    names, if anything (no links, no permissions). *)
Inductive fs_entry : Type :=
| RegularFile
| Directory.

Definition filesystem : Type := string -> option fs_entry.

Definition os_path_exists (fs : filesystem) (path : string) : bool :=
  match fs path with
  | Some _ => true
  | None => false
  end.

(** [os.remove(path)]: removes a regular file, raises an [OSError] for
    anything else. *)
Definition os_remove (fs : filesystem) (path : string) : outcome filesystem :=
  match fs path with
  | Some RegularFile =>
      Ok (fun q => if String.eqb q path then None else fs q)
  | _ => Raise (CollaboratorError "OSError")
  end.

Record files_limit_control : Type := {
  saved_weights_paths : list string;
  max_weights_to_save : Z
}.

(** [FilesLimitControl.__init__]. *)
Definition FilesLimitControl_init (max_weights_to_save : Z)
  : files_limit_control :=
  {| saved_weights_paths := [];
     max_weights_to_save := max_weights_to_save |}.

Definition removed_message (path : string) : string :=
  ("Weigths removed '" ++ path ++ "'")%string.

(** What one call leaves: the object, the file system, the lines printed
    and the exception raised, if any. *)
Record limit_step : Type := {
  control_after : files_limit_control;
  fs_after : filesystem;
  step_printed : list string;
  step_raised : option exn
}.

(** [FilesLimitControl.__call__]. *)
Definition FilesLimitControl_call (self : files_limit_control)
    (fs : filesystem) (save_path : string) : limit_step :=
  let paths := saved_weights_paths self ++ [save_path] in
  let limit := max_weights_to_save self in
  if limit <? Z.of_nat (List.length paths) then
    match paths with
    | old_weights_path :: rest =>
        let self' := {| saved_weights_paths := rest;
                        max_weights_to_save := limit |} in
        if os_path_exists fs old_weights_path then
          match os_remove fs old_weights_path with
          | Ok fs' =>
              {| control_after := self'; fs_after := fs';
                 step_printed := [removed_message old_weights_path];
                 step_raised := None |}
          | Raise e =>
              {| control_after := self'; fs_after := fs;
                 step_printed := []; step_raised := Some e |}
          end
        else
          {| control_after := self'; fs_after := fs;
             step_printed := []; step_raised := None |}
    | [] =>
        {| control_after := {| saved_weights_paths := paths;
                               max_weights_to_save := limit |};
           fs_after := fs; step_printed := [];
           step_raised := Some IndexError |}
    end
  else
    {| control_after := {| saved_weights_paths := paths;
                           max_weights_to_save := limit |};
       fs_after := fs; step_printed := []; step_raised := None |}.

(** The object after a sequence of calls, whatever the calls raise. *)
Fixpoint FilesLimitControl_calls (self : files_limit_control)
    (fs : filesystem) (paths : list string)
  : files_limit_control * filesystem :=
  match paths with
  | [] => (self, fs)
  | p :: rest =>
      let step := FilesLimitControl_call self fs p in
      FilesLimitControl_calls (control_after step) (fs_after step) rest
  end.

(** *** [AverageMeter] *)

(** A Python number: an int or a float. *)
Inductive pynum : Type :=
| PyInt (n : Z)
| PyFloat (f : F64.f64).

(** The conversion of an int operand to float in mixed arithmetic. *)
Definition int_to_float (n : Z) : outcome F64.f64 :=
  match binary_normalize F64.prec F64.emax n 0 false with
  | S754_infinity _ => Raise OverflowError
  | f => Ok f
  end.

Definition as_float (a : pynum) : outcome F64.f64 :=
  match a with
  | PyInt n => int_to_float n
  | PyFloat f => Ok f
  end.

Definition py_mul (a b : pynum) : outcome pynum :=
  match a, b with
  | PyInt x, PyInt y => Ok (PyInt (x * y))
  | _, _ =>
      x <- as_float a ;;
      y <- as_float b ;;
      Ok (PyFloat (F64.mul x y))
  end.

Definition py_add (a b : pynum) : outcome pynum :=
  match a, b with
  | PyInt x, PyInt y => Ok (PyInt (x + y))
  | _, _ =>
      x <- as_float a ;;
      y <- as_float b ;;
      Ok (PyFloat (SFadd F64.prec F64.emax x y))
  end.

Definition is_zero (f : F64.f64) : bool :=
  match f with
  | S754_zero _ => true
  | _ => false
  end.

Definition py_truediv (a b : pynum) : outcome pynum :=
  match a, b with
  | PyInt x, PyInt y =>
      q <- F64.int_true_divide x y ;;
      Ok (PyFloat q)
  | _, _ =>
      x <- as_float a ;;
      y <- as_float b ;;
      if is_zero y then Raise ZeroDivisionError
      else Ok (PyFloat (SFdiv F64.prec F64.emax x y))
  end.

Record average_meter : Type := {
  meter_avg : pynum;
  meter_sum : pynum;
  meter_count : pynum
}.

(** [AverageMeter.reset] (and [__init__], which calls it). *)
Definition AverageMeter_reset : average_meter :=
  {| meter_avg := PyInt 0; meter_sum := PyInt 0; meter_count := PyInt 0 |}.

(** [AverageMeter.update]: the three assignments in turn; an exception
    leaves the attributes assigned before it. *)
Definition AverageMeter_update (self : average_meter) (val n : pynum)
  : average_meter * option exn :=
  match (product <- py_mul val n ;; py_add (meter_sum self) product) with
  | Raise e => (self, Some e)
  | Ok new_sum =>
      let self1 := {| meter_avg := meter_avg self; meter_sum := new_sum;
                      meter_count := meter_count self |} in
      match py_add (meter_count self1) n with
      | Raise e => (self1, Some e)
      | Ok new_count =>
          let self2 := {| meter_avg := meter_avg self1;
                          meter_sum := meter_sum self1;
                          meter_count := new_count |} in
          match py_truediv (meter_sum self2) (meter_count self2) with
          | Raise e => (self2, Some e)
          | Ok new_avg =>
              ({| meter_avg := new_avg; meter_sum := meter_sum self2;
                  meter_count := meter_count self2 |}, None)
          end
      end
  end.

(** The meter after a sequence of updates, whatever they raise. *)
Fixpoint AverageMeter_updates (self : average_meter)
    (updates : list (pynum * pynum)) : average_meter :=
  match updates with
  | [] => self
  | (val, n) :: rest =>
      AverageMeter_updates (fst (AverageMeter_update self val n)) rest
  end.

Definition int_update (vn : Z * Z) : pynum * pynum :=
  (PyInt (fst vn), PyInt (snd vn)).

Definition weighted_sum (updates : list (Z * Z)) : Z :=
  fold_right (fun vn acc => fst vn * snd vn + acc) 0 updates.

Definition total_weight (updates : list (Z * Z)) : Z :=
  fold_right (fun vn acc => snd vn + acc) 0 updates.

(** *** Concrete inputs for the utilities *)

Definition conv_weight : tensor :=
  {| tensor_shape := [2; 2]; tensor_data := [zero; zero; zero; zero] |}.

Definition conv_weight_trained : tensor :=
  {| tensor_shape := [2; 2];
     tensor_data := [F64.one; half; half; F64.one] |}.

Definition head_bias : tensor :=
  {| tensor_shape := [3]; tensor_data := [zero; zero; zero] |}.

Definition head_bias_other : tensor :=
  {| tensor_shape := [5];
     tensor_data := [half; half; half; half; half] |}.

(** A model with two parameters, and a checkpoint whose head has another
    shape and which holds one parameter the model does not have. *)
Definition model_state : state_dict :=
  [("conv.weight"%string, conv_weight); ("head.bias"%string, head_bias)].

Definition checkpoint : state_dict :=
  [("head.bias"%string, head_bias_other);
   ("conv.weight"%string, conv_weight_trained);
   ("extra.weight"%string, conv_weight)].

(** A directory holding two weight files. *)
Definition weights_dir (path : string) : option fs_entry :=
  if String.eqb path "w1.ckpt" then Some RegularFile
  else if String.eqb path "w2.ckpt" then Some RegularFile
  else if String.eqb path "runs" then Some Directory
  else None.

(** * Properties

    ** Binary64 facts: conversions of [int32] values and the unit scale *)

Lemma digits2_pos_iter_xO (p k : positive) :
  digits2_pos (Pos.iter xO p k) = (digits2_pos p + k)%positive.
Proof.
  induction k as [|k IH] using Pos.peano_ind.
  - simpl. now rewrite Pos.add_1_r.
  - rewrite Pos.iter_succ. simpl. rewrite IH. lia.
Qed.

Lemma Zpos_iter_xO (p k : positive) :
  Zpos (Pos.iter xO p k) = Zpos p * 2 ^ Zpos k.
Proof.
  induction k as [|k IH] using Pos.peano_ind.
  - simpl. lia.
  - rewrite Pos.iter_succ, Pos2Z.inj_xO, IH, Pos2Z.inj_succ, Z.pow_succ_r by lia. ring.
Qed.

Lemma digits2_pos_lower (p : positive) :
  2 ^ (Zpos (digits2_pos p) - 1) <= Zpos p.
Proof.
  induction p as [p IH|p IH|]; simpl digits2_pos.
  - rewrite Pos2Z.inj_succ. replace (Z.succ (Zpos (digits2_pos p)) - 1) with (Z.succ (Zpos (digits2_pos p) - 1)) by lia.
    rewrite Z.pow_succ_r by lia. lia.
  - rewrite Pos2Z.inj_succ. replace (Z.succ (Zpos (digits2_pos p)) - 1) with (Z.succ (Zpos (digits2_pos p) - 1)) by lia.
    rewrite Z.pow_succ_r by lia. lia.
  - simpl. lia.
Qed.

Lemma digits2_pos_le (p : positive) (n : Z) :
  Zpos p < 2 ^ n -> Zpos (digits2_pos p) <= n.
Proof.
  intros Hp.
  destruct (Z_le_gt_dec (Zpos (digits2_pos p)) n) as [|Hgt]; [assumption|].
  exfalso.
  destruct (Z_lt_le_dec n 0) as [Hn|Hn].
  - rewrite Z.pow_neg_r in Hp by assumption. lia.
  - pose proof (digits2_pos_lower p) as Hl.
    assert (2 ^ n <= 2 ^ (Zpos (digits2_pos p) - 1)) by (apply Z.pow_le_mono_r; lia).
    lia.
Qed.

Ltac shr_amount n tac :=
  match goal with
  | |- context [shr _ _ ?a] =>
      let H := fresh in assert (H : a = n) by tac; rewrite H; clear H
  end.

Ltac fexp_lia := unfold fexp, emin, F64.prec, F64.emax in *; simpl Zdigits2; lia.

Ltac float_step :=
  cbn [shr shr_record_of_loc shr_m shr_r shr_s loc_of_shr_record
       round_nearest_even Zdigits2].

Lemma round_canonical (s : bool) (m : positive) (e : Z) :
  Zpos (digits2_pos m) = 53 -> -1074 <= e <= 971 ->
  binary_round_aux F64.prec F64.emax s (Zpos m) e loc_Exact = S754_finite s m e.
Proof.
  intros Hd He.
  unfold binary_round_aux, shr_fexp.
  shr_amount 0 fexp_lia. float_step.
  shr_amount 0 fexp_lia. float_step.
  unfold F64.emax, F64.prec.
  destruct (Z.leb_spec e (1024 - 53)); [reflexivity|lia].
Qed.

Lemma binary_round_small (s : bool) (p : positive) :
  Zpos p < 2 ^ 52 ->
  binary_round F64.prec F64.emax s p 0 =
  S754_finite s (Pos.iter xO p (Z.to_pos (53 - Zpos (digits2_pos p))))
              (Zpos (digits2_pos p) - 53).
Proof.
  intros Hp. pose proof (digits2_pos_le p 52 Hp) as Hd.
  unfold binary_round, shl_align.
  replace (fexp F64.prec F64.emax (Zpos (digits2_pos p) + 0) - 0)
    with (Zneg (Z.to_pos (53 - Zpos (digits2_pos p)))).
  2:{ unfold fexp, emin, F64.prec, F64.emax. lia. }
  replace (fexp F64.prec F64.emax (Zpos (digits2_pos p) + 0))
    with (Zpos (digits2_pos p) - 53).
  2:{ unfold fexp, emin, F64.prec, F64.emax. lia. }
  apply round_canonical.
  - rewrite digits2_pos_iter_xO. lia.
  - lia.
Qed.

Lemma mul_one_finite (s : bool) (m : positive) (e : Z) :
  Zpos (digits2_pos m) = 53 -> -1074 <= e <= 971 ->
  F64.mul (S754_finite s m e) F64.one = S754_finite s m e.
Proof.
  intros Hd He.
  change F64.one with (S754_finite false 4503599627370496 (-52)).
  unfold F64.mul, SFmul.
  replace (xorb s false) with s by (now destruct s).
  rewrite !Pos.mul_xO_r, Pos.mul_1_r.
  unfold binary_round_aux, shr_fexp.
  shr_amount 52 ltac:(cbn [Zdigits2 digits2_pos]; unfold fexp, emin, F64.prec, F64.emax; lia).
  float_step. cbn [iter_pos shr_1 orb]. float_step.
  shr_amount 0 fexp_lia. float_step.
  replace (e + -52 + 52) with e by lia.
  unfold F64.emax, F64.prec.
  destruct (Z.leb_spec e (1024 - 53)); [reflexivity|lia].
Qed.

Lemma mul_one_of_int32 (x : Z) :
  F64.is_int32 x -> F64.mul (F64.of_int32 x) F64.one = F64.of_int32 x.
Proof.
  unfold F64.is_int32, F64.int32_min, F64.int32_max. intros Hx.
  destruct x as [|p|p]; [reflexivity| |];
    unfold F64.of_int32, binary_normalize;
    (rewrite binary_round_small by lia);
    (assert (Hd : Zpos (digits2_pos p) <= 32) by (apply digits2_pos_le; lia));
    (apply mul_one_finite; [rewrite digits2_pos_iter_xO; lia | lia]).
Qed.

Lemma cast_of_int32 (u : F64.f64 -> Z) (x : Z) :
  F64.is_int32 x -> F64.cast_int32 u (F64.of_int32 x) = x.
Proof.
  intros Hx. assert (Hin : F64.in_int32 x = true).
  { unfold F64.is_int32 in Hx. unfold F64.in_int32. apply andb_true_iff. split; apply Z.leb_le; lia. }
  unfold F64.is_int32, F64.int32_min, F64.int32_max in Hx.
  destruct x as [|p|p]; [reflexivity| |];
    unfold F64.of_int32, binary_normalize;
    (rewrite binary_round_small by lia);
    (assert (Hd : Zpos (digits2_pos p) <= 32) by (apply digits2_pos_le; lia));
    unfold F64.cast_int32, F64.trunc.
  - replace (Z.shiftl _ _) with (Zpos p).
    + cbn [cond_Zopp]. now rewrite Hin.
    + rewrite Zpos_iter_xO.
      replace (Zpos (digits2_pos p) - 53) with (- Zpos (Z.to_pos (53 - Zpos (digits2_pos p)))) by lia.
      rewrite Z.shiftl_opp_r, Z.shiftr_div_pow2 by lia.
      rewrite Z.div_mul; [reflexivity | apply Z.pow_nonzero; lia].
  - replace (Z.shiftl _ _) with (Zpos p).
    + cbn [cond_Zopp]. change (- Zpos p) with (Zneg p). now rewrite Hin.
    + rewrite Zpos_iter_xO.
      replace (Zpos (digits2_pos p) - 53) with (- Zpos (Z.to_pos (53 - Zpos (digits2_pos p)))) by lia.
      rewrite Z.shiftl_opp_r, Z.shiftr_div_pow2 by lia.
      rewrite Z.div_mul; [reflexivity | apply Z.pow_nonzero; lia].
Qed.

Lemma div_eucl_mul (p : positive) (k : Z) :
  Z.div_eucl (Zpos p * k) (Zpos p) = (k, 0).
Proof.
  pose proof (Z.div_mul k (Zpos p) ltac:(lia)) as Hq.
  pose proof (Z.mod_mul k (Zpos p) ltac:(lia)) as Hr.
  rewrite (Z.mul_comm k) in Hq, Hr.
  unfold Z.div, Z.modulo in Hq, Hr.
  destruct (Z.div_eucl (Zpos p * k) (Zpos p)) as [q r]. simpl in *. congruence.
Qed.

Lemma SFdiv_self (s : bool) (p : positive) :
  SFdiv F64.prec F64.emax (S754_finite s p 0) (S754_finite s p 0) = F64.one.
Proof.
  cbn [SFdiv]. unfold SFdiv_core_binary.
  match goal with
  | |- context [fexp _ _ ?a] =>
      let H := fresh in assert (H : a = 0) by lia; rewrite H; clear H
  end.
  match goal with
  | |- context [Z.div_eucl ?a _] =>
      let H := fresh in
      assert (H : a = Zpos p * 2 ^ 53)
        by (rewrite <- Z.shiftl_mul_pow2 by lia; reflexivity);
      rewrite H; clear H
  end.
  change (IntDef.Z.div_eucl (Zpos p * 2 ^ 53) (Zpos p))
    with (Z.div_eucl (Zpos p * 2 ^ 53) (Zpos p)).
  rewrite div_eucl_mul.
  replace (new_location (Zpos p) 0) with loc_Exact
    by (unfold new_location; now destruct (Z.even (Zpos p))).
  replace (xorb s s) with false by (now destruct s).
  reflexivity.
Qed.

Lemma int_true_divide_self (h : Z) :
  h <> 0 -> F64.int_true_divide h h = Ok F64.one.
Proof.
  intros Hh. unfold F64.int_true_divide.
  destruct (Z.eqb_spec h 0) as [|_]; [contradiction|].
  destruct h as [|p|p]; [contradiction| |];
    cbn [F64.raw_int]; rewrite SFdiv_self; reflexivity.
Qed.

(** ** Unit scale *)

Section UnitScale.

Variable unrepresentable : F64.f64 -> Z.

Lemma scale_point_unit (x : Z) :
  F64.is_int32 x ->
  F64.cast_int32 unrepresentable (F64.mul (F64.of_int32 x) F64.one) = x.
Proof.
  intros Hx. rewrite mul_one_of_int32 by assumption.
  now apply cast_of_int32.
Qed.

Lemma scale_columns_unit (c : contour) :
  int32_contour c ->
  scale_column unrepresentable 1 F64.one
    (scale_column unrepresentable 0 F64.one c) = c.
Proof.
  unfold scale_column. rewrite map_map.
  induction 1 as [|[x y] rest [Hx Hy] _ IH]; simpl.
  - reflexivity.
  - unfold px, py in *. simpl in *.
    rewrite !scale_point_unit by assumption. now rewrite IH.
Qed.

End UnitScale.

(** ** Bounding boxes *)

Lemma min_max_bounds (f : point -> Z) (pts : contour) :
  forall lo hi a b,
    Cv2.min_max f lo hi pts = (a, b) ->
    (a <= lo /\ hi <= b) /\
    (forall p, In p pts -> a <= f p <= b) /\
    (a = lo \/ exists p, In p pts /\ f p = a) /\
    (b = hi \/ exists p, In p pts /\ f p = b).
Proof.
  induction pts as [|q rest IH]; simpl; intros lo hi a b H.
  - inversion H; subst. split; [lia|]. split; [intros p []|]. split; now left.
  - apply IH in H. destruct H as [[Ha Hb] [Hin [Hmin Hmax]]].
    split; [lia|]. split; [|split].
    + intros p [<-|Hp]; [lia|now apply Hin].
    + destruct Hmin as [->|[p [Hp Hfp]]].
      * destruct (Z.min_spec lo (f q)) as [[_ ->]|[_ ->]]; [now left|].
        right. exists q. auto.
      * right. exists p. auto.
    + destruct Hmax as [->|[p [Hp Hfp]]].
      * destruct (Z.max_spec hi (f q)) as [[_ ->]|[_ ->]]; [|now left].
        right. exists q. auto.
      * right. exists p. auto.
Qed.

Lemma min_max_extremes (f : point -> Z) (p : point) (rest : contour) :
  exists lo hi,
    Cv2.min_max f (f p) (f p) rest = (lo, hi) /\
    least f (p :: rest) lo /\ greatest f (p :: rest) hi.
Proof.
  destruct (Cv2.min_max f (f p) (f p) rest) as [lo hi] eqn:E.
  exists lo, hi. split; [reflexivity|].
  apply min_max_bounds in E. destruct E as [[Ha Hb] [Hin [Hmin Hmax]]].
  split; split.
  - destruct Hmin as [->|[q [Hq Hfq]]]; [exists p|exists q]; simpl; auto.
  - intros q [<-|Hq]; [lia|]. now apply Hin.
  - destruct Hmax as [->|[q [Hq Hfq]]]; [exists p|exists q]; simpl; auto.
  - intros q [<-|Hq]; [lia|]. now apply Hin.
Qed.

Lemma boundingRect_extremes (c : contour) :
  c <> [] ->
  exists x_min y_min x_max y_max,
    least px c x_min /\ least py c y_min /\
    greatest px c x_max /\ greatest py c y_max /\
    Cv2.boundingRect c = (x_min, y_min, x_max - x_min + 1, y_max - y_min + 1).
Proof.
  destruct c as [|p rest]; [congruence|]. intros _.
  destruct (min_max_extremes px p rest) as [x0 [x1 [Ex [Hx0 Hx1]]]].
  destruct (min_max_extremes py p rest) as [y0 [y1 [Ey [Hy0 Hy1]]]].
  exists x0, y0, x1, y1. unfold Cv2.boundingRect. rewrite Ex, Ey. auto.
Qed.






(** ** Area filter *)

Lemma filter_loop_filter (min_area : Q) (contours : list contour) :
  forall contour_list,
    filter_loop min_area contours contour_list =
    contour_list ++ filter (area_at_least min_area) contours.
Proof.
  induction contours as [|c rest IH]; simpl; intros acc.
  - now rewrite app_nil_r.
  - unfold area_at_least at 1.
    destruct (Qle_bool min_area (Cv2.contourArea c)); rewrite IH.
    + now rewrite <- app_assoc.
    + reflexivity.
Qed.

Section Extractor.

Variable findContours : list (list Z) -> list contour.

Lemma get_contours_from_mask_filter (mask : mask_t) (min_area : Q) :
  get_contours_from_mask findContours mask min_area =
  filter (area_at_least min_area) (findContours (astype_uint8 mask)).
Proof.
  unfold get_contours_from_mask. now rewrite filter_loop_filter.
Qed.


End Extractor.

(** ** Thresholding *)



Lemma pixel_map {A B : Type} (f : A -> B) (a : list (list A)) (i j : nat) :
  pixel (map (map f) a) i j = option_map f (pixel a i j).
Proof.
  unfold pixel. rewrite nth_error_map.
  destruct (nth_error a i) as [row|]; simpl; [apply nth_error_map|reflexivity].
Qed.


(** ** Rescaling and the class postprocessor *)

Lemma reduce_contours_dims_id (contours : list contour) :
  reduce_contours_dims contours = contours.
Proof.
  unfold reduce_contours_dims, py_int.
  rewrite <- (map_id contours) at 2. apply map_ext. intros c.
  rewrite <- (map_id c) at 2. apply map_ext. now intros [x y].
Qed.

Section Rescale.

Variable unrepresentable : F64.f64 -> Z.

Lemma scale_columns_truncate (x_scale y_scale : F64.f64) (c : contour) :
  scale_column unrepresentable 1 y_scale
    (scale_column unrepresentable 0 x_scale c) =
  truncate_scaled unrepresentable x_scale y_scale c.
Proof.
  unfold scale_column, truncate_scaled. rewrite map_map. reflexivity.
Qed.

Lemma rescale_contours_truncates (contours : list contour)
    (pred_height pred_width image_height image_width : Z) :
  rescale_contours unrepresentable contours
    pred_height pred_width image_height image_width =
  (y_ratio <- F64.int_true_divide image_height pred_height ;;
   x_ratio <- F64.int_true_divide image_width pred_width ;;
   Ok (map (truncate_scaled unrepresentable x_ratio y_ratio) contours)).
Proof.
  unfold rescale_contours.
  destruct (F64.int_true_divide image_height pred_height) as [yr|]; simpl;
    [|reflexivity].
  destruct (F64.int_true_divide image_width pred_width) as [xr|]; simpl;
    [|reflexivity].
  f_equal. apply map_ext. intros c. apply scale_columns_truncate.
Qed.

(** Claim C7: rescaling from a resolution [(H, W)] to the same resolution
    returns the contours unchanged (the scale factors are exactly [1.0], the
    products and their conversion back to [int32] are exact). *)
Theorem rescale_contours_unit_scale (contours : list contour) (H W : Z) :
  H <> 0 -> W <> 0 -> Forall int32_contour contours ->
  rescale_contours unrepresentable contours H W H W = Ok contours.
Proof.
  intros HH HW Hc. unfold rescale_contours.
  rewrite !int_true_divide_self by assumption. simpl. f_equal.
  induction Hc as [|c rest Hc _ IH]; simpl; [reflexivity|].
  now rewrite scale_columns_unit, IH.
Qed.

Variable findContours : list (list Z) -> list contour.


(** Claim C1, as the code has it: the class postprocessor stores every
    scaled coordinate back into the [int32] contour, truncated toward zero,
    during rescaling; the bounding boxes are computed from these truncated
    contours, and the polygons returned are these same contours: the final
    reduction changes no coordinate. *)
Theorem bbox_from_truncated_contour (pred : prob_map) (params : class_params)
    (pred_height pred_width image_height image_width : Z) :
  get_contours_from_predictions findContours unrepresentable pred params
    pred_height pred_width image_height image_width =
  (y_scale <- F64.int_true_divide image_height pred_height ;;
   x_scale <- F64.int_true_divide image_width pred_width ;;
   let polygons :=
     map (truncate_scaled unrepresentable x_scale y_scale)
         (get_contours_from_mask findContours
            (mask_preprocess pred (threshold (postprocess params)))
            (min_area (postprocess params))) in
   Ok (polygons, map contour2bbox polygons)).
Proof.
  unfold get_contours_from_predictions.
  rewrite rescale_contours_truncates.
  destruct (F64.int_true_divide image_height pred_height) as [yr|]; simpl;
    [|reflexivity].
  destruct (F64.int_true_divide image_width pred_width) as [xr|]; simpl;
    [|reflexivity].
  now rewrite reduce_contours_dims_id.
Qed.

End Rescale.

(** Claim C1 as stated fails.  For the blob at resolution 10x10 and an
    image of 11x11 the scale is 1.1: the scaled contour runs from 2.2 to 5.5,
    while the box returned is (2, 2, 6, 6), the box of the contour truncated
    to (2, 2) .. (5, 5): it starts at 2, not at 2.2. *)
Lemma bbox_of_float_contour_counterexample :
  ~ bbox_of_float_contour_claim findContours_blob unrepresentable_x86
      blob_map field_params 10 10 11 11.
Proof.
  intros H.
  specialize (H [square] [(2, 2, 6, 6)]
                (S754_finite false 4953959590107546 (-52))
                (S754_finite false 4953959590107546 (-52))).
  assert (E1 : get_contours_from_predictions findContours_blob
                 unrepresentable_x86 blob_map field_params 10 10 11 11 =
               Ok ([square], [(2, 2, 6, 6)])) by (vm_compute; reflexivity).
  assert (E2 : F64.int_true_divide 11 10 =
               Ok (S754_finite false 4953959590107546 (-52)))
    by (vm_compute; reflexivity).
  specialize (H E1 E2 E2). vm_compute in H. discriminate H.
Qed.

(** ** The error monad and ordered traversals *)

Lemma bind_ok {A B : Type} (c : outcome A) (k : A -> outcome B) (b : B) :
  bind c k = Ok b <-> exists a, c = Ok a /\ k a = Ok b.
Proof.
  destruct c as [a|e]; simpl; split.
  - intros H. now exists a.
  - now intros [a' [[= <-] H]].
  - discriminate.
  - now intros [a' [[=] _]].
Qed.

Lemma each_in_order_ok {A B : Type} (f : A -> outcome B) (xs : list A) :
  forall ys, each_in_order f xs = Ok ys <-> Forall2 (fun x y => f x = Ok y) xs ys.
Proof.
  induction xs as [|x rest IH]; simpl; intros ys.
  - split; [intros [= <-]; constructor|intros H; now inversion H].
  - rewrite bind_ok. split.
    + intros [y [Hy H]]. apply bind_ok in H. destruct H as [more [Hm [= <-]]].
      constructor; [assumption|now apply IH].
    + intros H. inversion H as [|? y ? more Hy Hm]; subst.
      exists y. split; [assumption|]. apply bind_ok. exists more.
      split; [now apply IH|reflexivity].
Qed.



Lemma each_in_order_ext {A B : Type} (f g : A -> outcome B) (xs : list A) :
  (forall x, In x xs -> f x = g x) ->
  each_in_order f xs = each_in_order g xs.
Proof.
  induction xs as [|x rest IH]; simpl; intros H; [reflexivity|].
  rewrite (H x) by now left. rewrite IH by (intros; apply H; now right).
  reflexivity.
Qed.



(** ** The assembler *)




Section Assembler.

Variable findContours : list (list Z) -> list contour.
Variable unrepresentable : F64.f64 -> Z.
Variable cfg : config.

Lemma append_records_map (cls_name : string) (pairs : list (contour * bbox_t)) :
  forall preds,
    append_records cls_name pairs preds =
    preds ++ map (fun cb => {| polygon := fst cb; bbox := snd cb;
                               class_name := cls_name |}) pairs.
Proof.
  induction pairs as [|[c b] rest IH]; simpl; intros preds.
  - now rewrite app_nil_r.
  - now rewrite IH, <- app_assoc.
Qed.

Lemma class_loop_in_order (pred : list prob_map) (img_h img_w : Z)
    (classes : list (nat * string)) :
  forall preds,
    class_loop findContours unrepresentable cfg pred img_h img_w classes preds =
    (rs <- concat_in_order
             (class_records findContours unrepresentable cfg pred img_h img_w)
             classes ;;
     Ok (preds ++ rs)).
Proof.
  induction classes as [|[idx name] rest IH]; simpl; intros preds.
  - now rewrite app_nil_r.
  - unfold class_records at 1. simpl.
    destruct (tensor_getitem pred idx) as [p|]; simpl; [|reflexivity].
    destruct (dict_getitem (cls2params cfg) name) as [params|]; simpl;
      [|reflexivity].
    destruct (get_contours_from_predictions _ _ _ _ _ _ _ _)
      as [[contours bboxes]|]; simpl; [|reflexivity].
    rewrite IH, append_records_map.
    destruct (concat_in_order _ rest) as [more|]; simpl; [|reflexivity].
    now rewrite app_assoc.
Qed.

Lemma image_loop_in_order (pairs : list (pyobj * list prob_map)) :
  forall pred_data,
    image_loop findContours unrepresentable cfg pairs pred_data =
    (rs <- each_in_order (image_record findContours unrepresentable cfg) pairs ;;
     Ok (pred_data ++ rs)).
Proof.
  induction pairs as [|[img pred] rest IH]; simpl; intros pred_data.
  - now rewrite app_nil_r.
  - unfold image_record at 1. simpl.
    destruct (shape_hw img) as [[h w]|]; simpl; [|reflexivity].
    rewrite class_loop_in_order.
    destruct (concat_in_order _ _) as [preds|]; simpl; [|reflexivity].
    rewrite IH.
    destruct (each_in_order _ rest) as [more|]; simpl; [|reflexivity].
    now rewrite <- app_assoc.
Qed.

Lemma assemble_in_order (images : list pyobj) (preds : list (list prob_map)) :
  assemble findContours unrepresentable cfg images preds =
  each_in_order (image_record findContours unrepresentable cfg)
                (combine images preds).
Proof.
  unfold assemble. rewrite image_loop_in_order.
  now destruct (each_in_order _ _).
Qed.

Lemma assemble_length (images : list pyobj) (preds : list (list prob_map))
    (out : list image_prediction) :
  assemble findContours unrepresentable cfg images preds = Ok out ->
  List.length out = Nat.min (List.length images) (List.length preds).
Proof.
  rewrite assemble_in_order, each_in_order_ok. intros H.
  apply Forall2_length in H. now rewrite <- H, length_combine.
Qed.

End Assembler.


Lemma nth_error_combine {A B : Type} (xs : list A) (ys : list B) :
  forall k x y,
    nth_error (combine xs ys) k = Some (x, y) <->
    nth_error xs k = Some x /\ nth_error ys k = Some y.
Proof.
  revert ys. induction xs as [|x' xs IH]; intros [|y' ys] [|k] x y; simpl;
    try (split; [discriminate|intros [H1 H2]; discriminate]).
  - split; [intros [= <- <-]; auto|intros [[= <-] [= <-]]; reflexivity].
  - apply IH.
Qed.


Section AssemblerClaims.

Variable findContours : list (list Z) -> list contour.
Variable unrepresentable : F64.f64 -> Z.
Variable cfg : config.







Variable forward : list pyobj -> outcome (list (list prob_map)).

(** Claim C4: for a model that answers one image with a non-empty batch,
    calling the entry point with [[image]] gives the one-element sequence of
    what the call with the bare image gives (or the same error), and the call
    with the bare image returns a bare record, not a sequence. *)
Theorem call_single_vs_list (a : ndarray) :
  (forall preds, forward [PyNdarray a] = Ok preds -> preds <> []) ->
  call findContours unrepresentable forward cfg (PyList [PyNdarray a]) =
  (r <- call findContours unrepresentable forward cfg (PyNdarray a) ;;
   Ok (as_sequence r))
  /\ (forall r,
        call findContours unrepresentable forward cfg (PyNdarray a) = Ok r ->
        exists p,
          r = One p /\
          call findContours unrepresentable forward cfg
            (PyList [PyNdarray a]) = Ok (Many [p])).
Proof.
  intros Hbatch. unfold call. simpl.
  destruct (forward [PyNdarray a]) as [preds|e] eqn:Ef; simpl;
    [|split; [reflexivity|discriminate]].
  specialize (Hbatch preds eq_refl).
  destruct (assemble findContours unrepresentable cfg [PyNdarray a] preds)
    as [out|e] eqn:Ea; simpl; [|split; [reflexivity|discriminate]].
  apply (assemble_length findContours unrepresentable cfg) in Ea. simpl in Ea.
  destruct preds as [|chans preds]; [congruence|]. simpl in Ea.
  destruct out as [|p [|q out]]; simpl in Ea; try discriminate.
  simpl. split; [reflexivity|]. intros r [= <-]. now exists p.
Qed.

(** Claim C9, as the code has it: the entry point raises its input-kind
    error, naming [type(images)], whatever the collaborators would do (they
    are not called), exactly when [images] is neither a list, a tuple nor an
    array.  For a list or a tuple the elements are not inspected, and these
    inputs and arrays go on to the transform and the model. *)
Theorem call_input_kind_check :
  (forall ty,
      call findContours unrepresentable forward cfg (PyObject ty) =
      Raise (Exception (input_kind_message ty)))
  /\ (forall images,
        (exists e, check_input images = Raise e) <->
        (exists ty, images = PyObject ty))
  /\ (forall items,
        call findContours unrepresentable forward cfg (PyList items) =
        (preds <- forward items ;;
         pred_data <- assemble findContours unrepresentable cfg items preds ;;
         Ok (Many pred_data)))
  /\ (forall items,
        call findContours unrepresentable forward cfg (PyTuple items) =
        (preds <- forward items ;;
         pred_data <- assemble findContours unrepresentable cfg items preds ;;
         Ok (Many pred_data)))
  /\ (forall a,
        call findContours unrepresentable forward cfg (PyNdarray a) =
        (preds <- forward [PyNdarray a] ;;
         pred_data <- assemble findContours unrepresentable cfg
                        [PyNdarray a] preds ;;
         match pred_data with
         | p :: _ => Ok (One p)
         | [] => Raise IndexError
         end)).
Proof.
  split; [reflexivity|]. split; [|repeat split; reflexivity].
  intros images. split.
  - intros [e He]. destruct images as [a|items|items|ty]; try discriminate.
    now exists ty.
  - intros [ty ->]. simpl. eauto.
Qed.

End AssemblerClaims.

(** ** Concrete runs *)





(** Claim C7 at a concrete input. *)
Lemma rescale_contours_unit_scale_witness :
  10 <> 0 /\ Forall int32_contour [square] /\
  rescale_contours unrepresentable_x86 [square] 10 10 10 10 = Ok [square].
Proof.
  assert (H : Forall int32_contour [square]).
  { repeat constructor; vm_compute; discriminate. }
  split; [lia|]. split; [exact H|].
  apply (rescale_contours_unit_scale unrepresentable_x86 [square] 10 10); [lia|lia|exact H].
Defined.


(** Claim C4 at a concrete input. *)
Lemma call_single_vs_list_witness :
  (forall preds, forward_blob 1 [PyNdarray image_20x20] = Ok preds -> preds <> []) /\
  call findContours_blob unrepresentable_x86 (forward_blob 1) field_config
    (PyList [PyNdarray image_20x20]) =
  (r <- call findContours_blob unrepresentable_x86 (forward_blob 1) field_config
          (PyNdarray image_20x20) ;;
   Ok (as_sequence r)).
Proof.
  assert (H : forall preds,
             forward_blob 1 [PyNdarray image_20x20] = Ok preds -> preds <> []).
  { intros preds [= <-]. discriminate. }
  split; [exact H|].
  apply (proj1 (call_single_vs_list findContours_blob unrepresentable_x86
                  field_config (forward_blob 1) image_20x20 H)).
Defined.




(** Claim C9 as stated fails: a list holding a string is not a sequence of
    raw images, yet the entry point raises no input-kind error for it; the
    call goes on to the collaborators and fails later, on the element's
    missing [shape]. *)
Lemma input_kind_counterexample :
  ~ input_kind_claim findContours_blob unrepresentable_x86 (forward_blob 1)
      field_config (PyList [PyObject "<class 'str'>"]).
Proof. unfold input_kind_claim. vm_compute. discriminate. Qed.

(** The scenario of section 8 through the entry point: the square found at
    resolution 10x10, in an image of 20x20. *)
Example call_on_blob :
  call findContours_blob unrepresentable_x86 (forward_blob 1) field_config
    (PyNdarray image_20x20) =
  Ok (One {| image := {| height := 20; width := 20 |};
             predictions :=
               [{| polygon := [(4, 4); (4, 10); (10, 10); (10, 4)];
                   bbox := (4, 4, 11, 11);
                   class_name := "field" |}] |}).
Proof. vm_compute. reflexivity. Qed.

(** The products are binary64 products: [1 / 49] rounds down, [49 * (1 / 49)]
    is just below 1, and the coordinate stored is 0. *)
Example rescale_inexact_product :
  rescale_contours unrepresentable_x86 [[(49, 49)]] 49 49 1 1 = Ok [[(0, 0)]].
Proof. vm_compute. reflexivity. Qed.

(** * Further properties of the code *)

(** ** Bounding boxes: further facts *)

Lemma least_unique (f : point -> Z) (c : contour) (a b : Z) :
  least f c a -> least f c b -> a = b.
Proof.
  intros [[p [Hp <-]] Ha] [[q [Hq <-]] Hb].
  specialize (Ha q Hq). specialize (Hb p Hp). lia.
Qed.

Lemma greatest_unique (f : point -> Z) (c : contour) (a b : Z) :
  greatest f c a -> greatest f c b -> a = b.
Proof.
  intros [[p [Hp <-]] Ha] [[q [Hq <-]] Hb].
  specialize (Ha q Hq). specialize (Hb p Hp). lia.
Qed.

Lemma contour2bbox_extremes (c : contour) :
  c <> [] ->
  exists x_min y_min x_max y_max,
    least px c x_min /\ least py c y_min /\
    greatest px c x_max /\ greatest py c y_max /\
    contour2bbox c = (x_min, y_min, x_max + 1, y_max + 1).
Proof.
  intros Hc. destruct (boundingRect_extremes c Hc)
    as [x0 [y0 [x1 [y1 [Hx0 [Hy0 [Hx1 [Hy1 E]]]]]]]].
  exists x0, y0, x1, y1. repeat (split; [assumption|]).
  unfold contour2bbox. rewrite E. f_equal; [f_equal|]; lia.
Qed.

Lemma contour2bbox_of_extremes (c : contour) (x0 y0 x1 y1 : Z) :
  least px c x0 -> least py c y0 -> greatest px c x1 -> greatest py c y1 ->
  contour2bbox c = (x0, y0, x1 + 1, y1 + 1).
Proof.
  intros Hx0 Hy0 Hx1 Hy1.
  assert (Hc : c <> []).
  { destruct Hx0 as [[p [Hp _]] _]. intros ->. contradiction. }
  destruct (contour2bbox_extremes c Hc)
    as [a0 [b0 [a1 [b1 [Ha0 [Hb0 [Ha1 [Hb1 E]]]]]]]].
  rewrite E.
  rewrite (least_unique _ _ _ _ Ha0 Hx0), (least_unique _ _ _ _ Hb0 Hy0),
    (greatest_unique _ _ _ _ Ha1 Hx1), (greatest_unique _ _ _ _ Hb1 Hy1).
  reflexivity.
Qed.


(** X2. The box depends on the set of points only: contours with the same
    points, in any order and with any repetitions, have the same box. *)
Theorem contour2bbox_same_points (c1 c2 : contour) :
  c1 <> [] ->
  (forall p, In p c1 <-> In p c2) ->
  contour2bbox c1 = contour2bbox c2.
Proof.
  intros Hc Hsame.
  destruct (contour2bbox_extremes c1 Hc)
    as [x0 [y0 [x1 [y1 [Hx0 [Hy0 [Hx1 [Hy1 E]]]]]]]].
  rewrite E. symmetry. apply contour2bbox_of_extremes.
  - destruct Hx0 as [[p [Hp Ep]] H]. split.
    + exists p. split; [now apply Hsame|assumption].
    + intros q Hq. apply H. now apply Hsame.
  - destruct Hy0 as [[p [Hp Ep]] H]. split.
    + exists p. split; [now apply Hsame|assumption].
    + intros q Hq. apply H. now apply Hsame.
  - destruct Hx1 as [[p [Hp Ep]] H]. split.
    + exists p. split; [now apply Hsame|assumption].
    + intros q Hq. apply H. now apply Hsame.
  - destruct Hy1 as [[p [Hp Ep]] H]. split.
    + exists p. split; [now apply Hsame|assumption].
    + intros q Hq. apply H. now apply Hsame.
Qed.

Lemma least_map (f : point -> Z) (g : point -> point) (h : Z -> Z)
    (c : contour) (m : Z) :
  (forall p, f (g p) = h (f p)) ->
  (forall a b, a <= b -> h a <= h b) ->
  least f c m -> least f (map g c) (h m).
Proof.
  intros Hfg Hmono [[p [Hp <-]] H]. split.
  - exists (g p). split; [now apply in_map|apply Hfg].
  - intros q Hq. apply in_map_iff in Hq. destruct Hq as [p' [<- Hp']].
    rewrite Hfg. apply Hmono. now apply H.
Qed.

Lemma greatest_map (f : point -> Z) (g : point -> point) (h : Z -> Z)
    (c : contour) (m : Z) :
  (forall p, f (g p) = h (f p)) ->
  (forall a b, a <= b -> h a <= h b) ->
  greatest f c m -> greatest f (map g c) (h m).
Proof.
  intros Hfg Hmono [[p [Hp <-]] H]. split.
  - exists (g p). split; [now apply in_map|apply Hfg].
  - intros q Hq. apply in_map_iff in Hq. destruct Hq as [p' [<- Hp']].
    rewrite Hfg. apply Hmono. now apply H.
Qed.

(** X3. Moving a contour moves its box by the same offset. *)
Theorem contour2bbox_translate (dx dy : Z) (c : contour) :
  c <> [] ->
  contour2bbox (translate dx dy c) = translate_bbox dx dy (contour2bbox c).
Proof.
  intros Hc.
  destruct (contour2bbox_extremes c Hc)
    as [x0 [y0 [x1 [y1 [Hx0 [Hy0 [Hx1 [Hy1 E]]]]]]]].
  rewrite E. unfold translate_bbox.
  replace (x1 + 1 + dx) with (x1 + dx + 1) by lia.
  replace (y1 + 1 + dy) with (y1 + dy + 1) by lia.
  apply contour2bbox_of_extremes; unfold translate.
  - apply (least_map px _ (fun a => a + dx)); [reflexivity|intros; lia|assumption].
  - apply (least_map py _ (fun a => a + dy)); [reflexivity|intros; lia|assumption].
  - apply (greatest_map px _ (fun a => a + dx)); [reflexivity|intros; lia|assumption].
  - apply (greatest_map py _ (fun a => a + dy)); [reflexivity|intros; lia|assumption].
Qed.


(** ** The area filter: further facts *)

Lemma contourArea_nonneg (c : contour) : (0 <= Cv2.contourArea c)%Q.
Proof.
  unfold Cv2.contourArea. destruct c as [|p rest]; [apply Qle_refl|].
  apply Qabs_nonneg.
Qed.

Lemma contourArea_few_points (c : contour) :
  (List.length c <= 2)%nat -> (Cv2.contourArea c == 0)%Q.
Proof.
  destruct c as [|[x1 y1] [|[x2 y2] [|r rest]]]; simpl; intros Hlen;
    try lia; unfold Cv2.contourArea; simpl; unfold px, py; simpl.
  - reflexivity.
  - replace (x1 * y1 - y1 * x1 + 0) with 0 by ring. reflexivity.
  - replace (x2 * y1 - y2 * x1 + (x1 * y2 - y1 * x2 + 0)) with 0 by ring.
    reflexivity.
Qed.

Lemma filter_filter_weaker (a1 a2 : Q) (cs : list contour) :
  (a1 <= a2)%Q ->
  filter (area_at_least a2) (filter (area_at_least a1) cs) =
  filter (area_at_least a2) cs.
Proof.
  intros Hle. induction cs as [|c rest IH]; simpl; [reflexivity|].
  destruct (area_at_least a1 c) eqn:E1; simpl; rewrite IH; [reflexivity|].
  destruct (area_at_least a2 c) eqn:E2; [|reflexivity].
  unfold area_at_least in *. apply Qle_bool_iff in E2.
  assert (H : Qle_bool a1 (Cv2.contourArea c) = true).
  { apply Qle_bool_iff. eapply Qle_trans; eassumption. }
  congruence.
Qed.

Section ExtractorMore.

Variable findContours : list (list Z) -> list contour.

(** X4. Raising [min_area] only removes contours: the result for the larger
    value is the result for the smaller one filtered again, in the same
    order. *)
Theorem get_contours_from_mask_monotone (mask : mask_t) (a1 a2 : Q) :
  (a1 <= a2)%Q ->
  get_contours_from_mask findContours mask a2 =
  filter (area_at_least a2) (get_contours_from_mask findContours mask a1)
  /\ incl (get_contours_from_mask findContours mask a2)
          (get_contours_from_mask findContours mask a1)
  /\ (List.length (get_contours_from_mask findContours mask a2) <=
      List.length (get_contours_from_mask findContours mask a1))%nat.
Proof.
  intros Hle. rewrite !get_contours_from_mask_filter.
  rewrite filter_filter_weaker by assumption.
  split; [reflexivity|]. split.
  - intros c Hc. apply filter_In in Hc. destruct Hc as [Hin Hc].
    apply filter_In. split; [assumption|].
    unfold area_at_least in *. apply Qle_bool_iff in Hc. apply Qle_bool_iff.
    eapply Qle_trans; eassumption.
  - rewrite <- (filter_filter_weaker a1 a2) by assumption.
    apply filter_length_le.
Qed.

(** X5. With [min_area <= 0] every contour found is returned; with
    [min_area > 0] every contour returned has at least three points (a
    contour of one or two points has area zero). *)
Theorem get_contours_from_mask_degenerate (mask : mask_t) (min_area : Q) :
  ((min_area <= 0)%Q ->
   get_contours_from_mask findContours mask min_area =
   findContours (astype_uint8 mask))
  /\ ((0 < min_area)%Q ->
      forall c, In c (get_contours_from_mask findContours mask min_area) ->
                (3 <= List.length c)%nat).
Proof.
  rewrite get_contours_from_mask_filter. split.
  - intros Hle. apply forallb_filter_id. apply forallb_forall. intros c _.
    unfold area_at_least. apply Qle_bool_iff.
    eapply Qle_trans; [eassumption|apply contourArea_nonneg].
  - intros Hpos c Hc. apply filter_In in Hc. destruct Hc as [_ Hc].
    unfold area_at_least in Hc. apply Qle_bool_iff in Hc.
    destruct (Nat.le_gt_cases (List.length c) 2) as [Hfew|]; [|lia].
    apply contourArea_few_points in Hfew. rewrite Hfew in Hc.
    exfalso. apply (Qlt_not_le _ _ Hpos Hc).
Qed.

End ExtractorMore.

(** ** Thresholding: a map without foreground *)

Lemma map_map_const {A B : Type} (f : A -> B) (b : B) (rows : list (list A)) :
  (forall row a, In row rows -> In a row -> f a = b) ->
  map (map f) rows = map (map (fun _ => b)) rows.
Proof.
  intros H. apply map_ext_in. intros row Hrow.
  apply map_ext_in. intros a Ha. now apply (H row).
Qed.

Lemma mask_preprocess_background (pred : prob_map) (thr : F64.f64) :
  (forall row p, In row pred -> In p row -> F64.gt p thr = false) ->
  astype_uint8 (mask_preprocess pred thr) = map (map (fun _ => 0)) pred.
Proof.
  intros H. unfold astype_uint8, mask_preprocess. rewrite map_map.
  apply map_ext_in. intros row Hrow. rewrite map_map.
  apply map_ext_in. intros p Hp. now rewrite (H row p Hrow Hp).
Qed.

(** ** Errors of the rescaling *)

Lemma int_true_divide_raises (a b : Z) (e : exn) :
  F64.int_true_divide a b = Raise e ->
  (e = ZeroDivisionError /\ b = 0) \/ (e = OverflowError /\ b <> 0).
Proof.
  unfold F64.int_true_divide. destruct (Z.eqb_spec b 0) as [->|Hb].
  - intros [= <-]. now left.
  - destruct (SFdiv _ _ _ _); try discriminate. intros [= <-]. now right.
Qed.

Lemma int_true_divide_zero (a : Z) :
  F64.int_true_divide a 0 = Raise ZeroDivisionError.
Proof. reflexivity. Qed.

Section RescaleErrors.

Variable unrepresentable : F64.f64 -> Z.

(** X6. The errors of [rescale_contours]: a zero prediction height raises
    [ZeroDivisionError], a zero prediction width raises too; nothing but
    [ZeroDivisionError] (for a zero height or width) or [OverflowError] is
    raised, and what is raised does not depend on the contours: it is raised
    for the empty list as well. *)
Theorem rescale_contours_errors (contours : list contour)
    (pred_height pred_width image_height image_width : Z) :
  (pred_height = 0 ->
   rescale_contours unrepresentable contours
     pred_height pred_width image_height image_width =
   Raise ZeroDivisionError)
  /\ (pred_width = 0 ->
      exists e,
        rescale_contours unrepresentable contours
          pred_height pred_width image_height image_width = Raise e)
  /\ (forall e,
        rescale_contours unrepresentable contours
          pred_height pred_width image_height image_width = Raise e ->
        (e = ZeroDivisionError /\ (pred_height = 0 \/ pred_width = 0)) \/
        e = OverflowError)
  /\ (forall e,
        rescale_contours unrepresentable contours
          pred_height pred_width image_height image_width = Raise e ->
        rescale_contours unrepresentable []
          pred_height pred_width image_height image_width = Raise e).
Proof.
  unfold rescale_contours. split; [|split; [|split]].
  - intros ->. reflexivity.
  - intros ->. destruct (F64.int_true_divide image_height pred_height); simpl; eauto.
  - intros e.
    destruct (F64.int_true_divide image_height pred_height) as [yr|ey] eqn:Ey;
      simpl.
    + destruct (F64.int_true_divide image_width pred_width) as [xr|ex] eqn:Ex;
        simpl; [discriminate|].
      intros [= <-]. apply int_true_divide_raises in Ex.
      destruct Ex as [[-> ->]|[-> _]]; auto.
    + intros [= <-]. apply int_true_divide_raises in Ey.
      destruct Ey as [[-> ->]|[-> _]]; auto.
  - intros e.
    destruct (F64.int_true_divide image_height pred_height); simpl; [|auto].
    destruct (F64.int_true_divide image_width pred_width); simpl; [discriminate|auto].
Qed.

Variable findContours : list (list Z) -> list contour.

Lemma get_contours_from_predictions_ok (pred : prob_map) (params : class_params)
    (ph pw ih iw : Z) (polys : list contour) (boxes : list bbox_t) :
  get_contours_from_predictions findContours unrepresentable pred params
    ph pw ih iw = Ok (polys, boxes) ->
  exists x_scale y_scale,
    F64.int_true_divide ih ph = Ok y_scale /\
    F64.int_true_divide iw pw = Ok x_scale /\
    polys = map (truncate_scaled unrepresentable x_scale y_scale)
              (get_contours_from_mask findContours
                 (mask_preprocess pred (threshold (postprocess params)))
                 (min_area (postprocess params))) /\
    boxes = map contour2bbox polys.
Proof.
  unfold get_contours_from_predictions. rewrite rescale_contours_truncates.
  destruct (F64.int_true_divide ih ph) as [yr|]; simpl; [|discriminate].
  destruct (F64.int_true_divide iw pw) as [xr|]; simpl; [|discriminate].
  rewrite reduce_contours_dims_id. intros [= <- <-]. eauto 10.
Qed.

(** X8. The class postprocessor returns parallel sequences: as many boxes
    as polygons, the i-th box is [contour2bbox] of the i-th polygon, and
    each polygon has as many points as the contour it comes from. *)
Theorem get_contours_from_predictions_parallel (pred : prob_map)
    (params : class_params) (ph pw ih iw : Z)
    (polys : list contour) (boxes : list bbox_t) :
  get_contours_from_predictions findContours unrepresentable pred params
    ph pw ih iw = Ok (polys, boxes) ->
  List.length polys = List.length boxes
  /\ Forall2 (fun poly box => box = contour2bbox poly) polys boxes
  /\ Forall2 (fun src poly => List.length poly = List.length src)
       (get_contours_from_mask findContours
          (mask_preprocess pred (threshold (postprocess params)))
          (min_area (postprocess params)))
       polys.
Proof.
  intros H. apply get_contours_from_predictions_ok in H.
  destruct H as [xs [ys [_ [_ [-> ->]]]]].
  split; [now rewrite !length_map|]. split.
  - induction (map _ _) as [|c rest IH]; simpl; constructor; auto.
  - induction (get_contours_from_mask _ _ _) as [|c rest IH]; simpl;
      constructor; [|assumption].
    unfold truncate_scaled. now rewrite length_map.
Qed.

(** X9. A probability map with no value above the threshold gives
    [findContours] the all-zero image; when nothing is found there, the class
    yields two empty sequences and no error. *)
Theorem get_contours_from_predictions_background (pred : prob_map)
    (params : class_params) (ph pw ih iw : Z) (x_scale y_scale : F64.f64) :
  (forall row p, In row pred -> In p row ->
                 F64.gt p (threshold (postprocess params)) = false) ->
  findContours (map (map (fun _ => 0)) pred) = [] ->
  F64.int_true_divide ih ph = Ok y_scale ->
  F64.int_true_divide iw pw = Ok x_scale ->
  get_contours_from_predictions findContours unrepresentable pred params
    ph pw ih iw = Ok ([], []).
Proof.
  intros Hbg Hnone Hy Hx. unfold get_contours_from_predictions.
  rewrite rescale_contours_truncates, Hy, Hx. simpl.
  rewrite get_contours_from_mask_filter, mask_preprocess_background, Hnone
    by assumption.
  reflexivity.
Qed.

End RescaleErrors.

(** ** The assembler: further facts *)


Lemma each_in_order_app {A B : Type} (f : A -> outcome B) (xs ys : list A) :
  each_in_order f (xs ++ ys) =
  (r1 <- each_in_order f xs ;; r2 <- each_in_order f ys ;; Ok (r1 ++ r2)).
Proof.
  induction xs as [|x rest IH]; simpl.
  - now destruct (each_in_order f ys).
  - destruct (f x) as [y|]; simpl; [|reflexivity]. rewrite IH.
    destruct (each_in_order f rest) as [r1|]; simpl; [|reflexivity].
    now destruct (each_in_order f ys).
Qed.

Lemma combine_app_eq {A B : Type} (xs1 xs2 : list A) (ys1 ys2 : list B) :
  List.length xs1 = List.length ys1 ->
  combine (xs1 ++ xs2) (ys1 ++ ys2) = combine xs1 ys1 ++ combine xs2 ys2.
Proof.
  revert ys1. induction xs1 as [|x xs1 IH]; intros [|y ys1]; simpl;
    try discriminate; [reflexivity|].
  intros [= H]. now rewrite IH.
Qed.

Lemma bind_ok_raises {A B : Type} (c : outcome A) (g : A -> B) (e : exn) :
  (a <- c ;; Ok (g a)) = Raise e <-> c = Raise e.
Proof. destruct c; simpl; split; congruence. Qed.

Lemma each_in_order_first_failure {A B : Type} (f : A -> outcome B)
    (xs : list A) (e : exn) :
  each_in_order f xs = Raise e <->
  exists k x,
    nth_error xs k = Some x /\ f x = Raise e /\
    forall j y, (j < k)%nat -> nth_error xs j = Some y -> exists r, f y = Ok r.
Proof.
  induction xs as [|x rest IH]; simpl.
  - split; [discriminate|]. intros [[|k] [y [H _]]]; discriminate.
  - destruct (f x) as [r|e'] eqn:Ex; simpl.
    + rewrite bind_ok_raises, IH. split.
      * intros [k [y [Hk [Hy Hbefore]]]].
        exists (S k), y. repeat split; try assumption.
        intros [|j] z Hj Hz; simpl in Hz.
        -- injection Hz as <-. eauto.
        -- apply (Hbefore j z); [lia|assumption].
      * intros [[|k] [y [Hk [Hy Hbefore]]]]; simpl in Hk; [congruence|].
        exists k, y. repeat split; try assumption.
        intros j z Hj Hz. apply (Hbefore (S j) z); [lia|exact Hz].
    + split.
      * intros [= ->]. exists 0%nat, x. repeat split; try assumption.
        intros j y Hj. lia.
      * intros [[|k] [y [Hk [Hy Hbefore]]]]; simpl in Hk.
        -- congruence.
        -- destruct (Hbefore 0%nat x ltac:(lia) eq_refl) as [r Hr]. congruence.
Qed.

Section AssemblerMore.

Variable findContours : list (list Z) -> list contour.
Variable unrepresentable : F64.f64 -> Z.
Variable cfg : config.




(** X13. Assembling a batch is assembling its parts: for a batch split in
    two (images and model outputs at the same place), the result is the
    results of the parts one after the other, and an error of the first part
    comes first. *)
Theorem assemble_batches (images1 images2 : list pyobj)
    (preds1 preds2 : list (list prob_map)) :
  List.length images1 = List.length preds1 ->
  assemble findContours unrepresentable cfg
    (images1 ++ images2) (preds1 ++ preds2) =
  (out1 <- assemble findContours unrepresentable cfg images1 preds1 ;;
   out2 <- assemble findContours unrepresentable cfg images2 preds2 ;;
   Ok (out1 ++ out2)).
Proof.
  intros Hlen. rewrite !assemble_in_order, combine_app_eq by assumption.
  apply each_in_order_app.
Qed.

(** X14. The assembler fails exactly when some image fails, and with the
    error of the first image that does: all images before it were assembled,
    and none of their records is returned. *)
Theorem assemble_first_failure (images : list pyobj)
    (preds : list (list prob_map)) (e : exn) :
  assemble findContours unrepresentable cfg images preds = Raise e <->
  exists k img pred,
    nth_error images k = Some img /\ nth_error preds k = Some pred /\
    image_record findContours unrepresentable cfg (img, pred) = Raise e /\
    forall j img' pred',
      (j < k)%nat ->
      nth_error images j = Some img' -> nth_error preds j = Some pred' ->
      exists r,
        image_record findContours unrepresentable cfg (img', pred') = Ok r.
Proof.
  rewrite assemble_in_order, each_in_order_first_failure. split.
  - intros [k [[img pred] [Hk [He Hbefore]]]].
    apply nth_error_combine in Hk. destruct Hk as [Hi Hp].
    exists k, img, pred. repeat split; try assumption.
    intros j img' pred' Hj Hi' Hp'. apply (Hbefore j (img', pred') Hj).
    apply nth_error_combine. auto.
  - intros [k [img [pred [Hi [Hp [He Hbefore]]]]]].
    exists k, (img, pred). repeat split; try assumption.
    + apply nth_error_combine. auto.
    + intros j [img' pred'] Hj Hj'. apply nth_error_combine in Hj'.
      destruct Hj' as [Hi' Hp']. eauto.
Qed.

Variable forward : list pyobj -> outcome (list (list prob_map)).


(** X16. An array with fewer than two dimensions passes the check of the
    input kind and fails with [ValueError] when its shape is unpacked, alone
    or in a list, once the model has answered. *)
Theorem call_shape_unpacking (a : ndarray) (chans : list prob_map)
    (rest : list (list prob_map)) :
  forward [PyNdarray a] = Ok (chans :: rest) ->
  (List.length (shape a) < 2)%nat ->
  call findContours unrepresentable forward cfg (PyNdarray a) = Raise ValueError
  /\ call findContours unrepresentable forward cfg (PyList [PyNdarray a]) =
     Raise ValueError.
Proof.
  intros Hf Hdim. unfold call. simpl. rewrite Hf. simpl.
  rewrite assemble_in_order. simpl. unfold image_record. simpl.
  destruct (shape a) as [|h [|w dims]]; simpl in Hdim; try lia; auto.
Qed.

End AssemblerMore.

(** ** Binary64 facts: exact products and quotients of integers *)

Lemma iter_pos_nat {A : Type} (f : A -> A) (p : positive) :
  forall x, iter_pos f p x = Nat.iter (Pos.to_nat p) f x.
Proof.
  induction p as [p IH|p IH|]; intros x; simpl iter_pos.
  - rewrite !IH, Pos2Nat.inj_xI, <- Nat.iter_add, <- Nat.iter_succ_r.
    f_equal. lia.
  - rewrite !IH, Pos2Nat.inj_xO, <- Nat.iter_add. f_equal. lia.
  - reflexivity.
Qed.

Lemma shr_1_iter_xO (k : nat) :
  forall m,
    Nat.iter k shr_1
      {| shr_m := Zpos (Nat.iter k xO m); shr_r := false; shr_s := false |} =
    {| shr_m := Zpos m; shr_r := false; shr_s := false |}.
Proof.
  induction k as [|k IH]; intros m; [reflexivity|].
  rewrite Nat.iter_succ_r. simpl Nat.iter at 2. cbn [shr_1 orb]. apply IH.
Qed.

Lemma digits2_pos_iter_nat (n : nat) (p : positive) :
  Zpos (digits2_pos (Nat.iter n xO p)) = Zpos (digits2_pos p) + Z.of_nat n.
Proof.
  induction n as [|n IH]; [simpl; lia|].
  simpl Nat.iter. simpl digits2_pos. rewrite Pos2Z.inj_succ, IH. lia.
Qed.

Lemma Zpos_iter_nat (n : nat) (p : positive) :
  Zpos (Nat.iter n xO p) = Zpos p * 2 ^ Z.of_nat n.
Proof.
  induction n as [|n IH]; [simpl; lia|].
  simpl Nat.iter. rewrite Pos2Z.inj_xO, IH, Nat2Z.inj_succ, Z.pow_succ_r by lia.
  ring.
Qed.

Lemma pos_iter_nat (p q : positive) :
  Pos.iter xO p q = Nat.iter (Pos.to_nat q) xO p.
Proof. apply Pos2Nat.inj_iter. Qed.

Lemma digits2_pos_upper (p : positive) : Zpos p < 2 ^ Zpos (digits2_pos p).
Proof.
  induction p as [p IH|p IH|]; simpl digits2_pos;
    try (rewrite Pos2Z.inj_succ, Z.pow_succ_r by lia; lia).
  simpl. lia.
Qed.

Lemma digits2_pos_mul (x k : positive) :
  Zpos (digits2_pos x) + Zpos (digits2_pos k) - 1 <= Zpos (digits2_pos (x * k))
  <= Zpos (digits2_pos x) + Zpos (digits2_pos k).
Proof.
  pose proof (digits2_pos_lower x) as Hx. pose proof (digits2_pos_lower k) as Hk.
  pose proof (digits2_pos_upper x) as Ux. pose proof (digits2_pos_upper k) as Uk.
  pose proof (digits2_pos_upper (x * k)) as U.
  set (dx := Zpos (digits2_pos x)) in *. set (dk := Zpos (digits2_pos k)) in *.
  set (d := Zpos (digits2_pos (x * k))) in *.
  assert (0 < dx /\ 0 < dk /\ 0 < d) as [Hdx [Hdk Hd]] by (unfold dx, dk, d; lia).
  split.
  - assert (H : 2 ^ (dx - 1) * 2 ^ (dk - 1) <= Zpos (x * k)).
    { rewrite Pos2Z.inj_mul. apply Z.mul_le_mono_nonneg; lia. }
    rewrite <- Z.pow_add_r in H by lia.
    assert (H2 : 2 ^ (dx - 1 + (dk - 1)) < 2 ^ d) by lia.
    apply Z.pow_lt_mono_r_iff in H2; lia.
  - apply digits2_pos_le. rewrite Pos2Z.inj_mul, Z.pow_add_r by lia.
    apply Z.mul_lt_mono_nonneg; lia.
Qed.

Lemma round_shifted (s : bool) (m : positive) (n : nat) (e : Z) :
  Zpos (digits2_pos m) = 53 -> -1074 <= e + Z.of_nat n <= 971 ->
  binary_round_aux F64.prec F64.emax s (Zpos (Nat.iter n xO m)) e loc_Exact =
  S754_finite s m (e + Z.of_nat n).
Proof.
  intros Hd He. destruct n as [|n].
  - simpl Nat.iter. rewrite Z.add_0_r in *. now apply round_canonical.
  - unfold binary_round_aux, shr_fexp.
    pose proof (digits2_pos_iter_nat (S n) m) as Hdig.
    shr_amount (Zpos (Pos.of_succ_nat n))
      ltac:(cbn [Zdigits2]; unfold fexp, emin, F64.prec, F64.emax; lia).
    cbn [shr shr_record_of_loc]. rewrite iter_pos_nat, SuccNat2Pos.id_succ.
    rewrite shr_1_iter_xO. float_step.
    shr_amount 0 fexp_lia. float_step.
    replace (e + Zpos (Pos.of_succ_nat n)) with (e + Z.of_nat (S n)) by lia.
    unfold F64.emax, F64.prec.
    destruct (Z.leb_spec (e + Z.of_nat (S n)) (1024 - 53)); [reflexivity|lia].
Qed.

Lemma binary_round_nat (s : bool) (p : positive) :
  Zpos p < 2 ^ 52 ->
  binary_round F64.prec F64.emax s p 0 =
  S754_finite s (Nat.iter (Z.to_nat (53 - Zpos (digits2_pos p))) xO p)
              (Zpos (digits2_pos p) - 53).
Proof.
  intros Hp. rewrite binary_round_small by assumption.
  pose proof (digits2_pos_le p 52 Hp).
  rewrite pos_iter_nat. do 2 f_equal. lia.
Qed.

Lemma pos_mul_iter_nat (a b : nat) (x k : positive) :
  (Nat.iter a xO x * Nat.iter b xO k)%positive = Nat.iter (a + b) xO (x * k)%positive.
Proof.
  induction a as [|a IH]; simpl.
  - induction b as [|b IH]; simpl; [reflexivity|].
    now rewrite Pos.mul_xO_r, IH.
  - now rewrite IH.
Qed.

Lemma mul_exact_pos (sx sk : bool) (x k : positive) :
  Zpos x * Zpos k < 2 ^ 52 ->
  F64.mul (binary_round F64.prec F64.emax sx x 0)
          (binary_round F64.prec F64.emax sk k 0) =
  binary_round F64.prec F64.emax (xorb sx sk) (x * k) 0.
Proof.
  intros Hxk.
  assert (Hx : Zpos x < 2 ^ 52) by nia.
  assert (Hk : Zpos k < 2 ^ 52) by nia.
  assert (Hm : Zpos (x * k) < 2 ^ 52) by (rewrite Pos2Z.inj_mul; exact Hxk).
  rewrite !binary_round_nat by assumption.
  pose proof (digits2_pos_le x 52 Hx) as Dx.
  pose proof (digits2_pos_le k 52 Hk) as Dk.
  pose proof (digits2_pos_le (x * k) 52 Hm) as Dm.
  pose proof (digits2_pos_mul x k) as Dxk.
  set (dx := Zpos (digits2_pos x)) in *. set (dk := Zpos (digits2_pos k)) in *.
  set (d := Zpos (digits2_pos (x * k))) in *.
  assert (0 < dx /\ 0 < dk /\ 0 < d) as [Hdx [Hdk Hd]] by (unfold dx, dk, d; lia).
  unfold F64.mul, SFmul. rewrite pos_mul_iter_nat.
  replace (Z.to_nat (53 - dx) + Z.to_nat (53 - dk))%nat
    with (Z.to_nat (53 - dx - dk + d) + Z.to_nat (53 - d))%nat by lia.
  rewrite Nat.iter_add, round_shifted.
  - f_equal. lia.
  - rewrite digits2_pos_iter_nat. fold d. lia.
  - lia.
Qed.

Lemma div_eucl_mul_l (p : positive) (q : Z) :
  Z.div_eucl (q * Zpos p) (Zpos p) = (q, 0).
Proof. rewrite Z.mul_comm. apply div_eucl_mul. Qed.

Lemma div_exact_pos (s1 s2 : bool) (k p : positive) :
  Zpos k < 2 ^ 52 ->
  SFdiv F64.prec F64.emax (S754_finite s1 (k * p) 0) (S754_finite s2 p 0) =
  binary_round F64.prec F64.emax (xorb s1 s2) k 0.
Proof.
  intros Hk. rewrite binary_round_nat by assumption.
  pose proof (digits2_pos_le k 52 Hk) as Dk.
  pose proof (digits2_pos_mul k p) as Dkp.
  set (dk := Zpos (digits2_pos k)) in *. set (dp := Zpos (digits2_pos p)) in *.
  set (d1 := Zpos (digits2_pos (k * p))) in *.
  assert (0 < dk /\ 0 < dp /\ 0 < d1) as [Hdk [Hdp Hd1]]
    by (unfold dk, dp, d1; lia).
  cbn [SFdiv].
  assert (Hcore : SFdiv_core_binary F64.prec F64.emax (Zpos (k * p)) 0 (Zpos p) 0 =
                  (Zpos (Nat.iter (Z.to_nat (dk - (d1 - dp))) xO
                           (Nat.iter (Z.to_nat (53 - dk)) xO k)),
                   d1 - dp - 53, loc_Exact)).
  { unfold SFdiv_core_binary. cbn [Zdigits2]. fold d1 dp.
    match goal with
    | |- context [IntDef.Z.min ?a ?b] =>
        let H := fresh in
        assert (H : IntDef.Z.min a b = d1 - dp - 53)
          by (unfold fexp, emin, F64.prec, F64.emax; lia);
        rewrite !H; clear H
    end.
    match goal with
    | |- context [IntDef.Z.shiftl _ ?a] =>
        let H := fresh in
        assert (H : a = Zpos (Z.to_pos (53 - (d1 - dp)))) by lia;
        rewrite !H; clear H
    end.
    cbv iota.
    match goal with
    | |- context [IntDef.Z.div_eucl ?a ?b] =>
        let H := fresh in
        assert (H : IntDef.Z.div_eucl a b =
                    (Zpos k * 2 ^ Zpos (Z.to_pos (53 - (d1 - dp))), 0));
        [|rewrite H; clear H]
    end.
    { change (IntDef.Z.shiftl (Zpos (k * p)) (Zpos (Z.to_pos (53 - (d1 - dp)))))
        with (Z.shiftl (Zpos (k * p)) (Zpos (Z.to_pos (53 - (d1 - dp))))).
      rewrite Z.shiftl_mul_pow2 by lia.
      rewrite <- (div_eucl_mul_l p (Zpos k * 2 ^ Zpos (Z.to_pos (53 - (d1 - dp))))).
      f_equal. rewrite Pos2Z.inj_mul. ring. }
    replace (new_location (Zpos p) 0) with loc_Exact
      by (unfold new_location; now destruct (Z.even (Zpos p))).
    f_equal. f_equal.
    rewrite <- Nat.iter_add, Zpos_iter_nat. do 2 f_equal. lia. }
  rewrite Hcore.
  rewrite round_shifted.
  - f_equal. lia.
  - rewrite digits2_pos_iter_nat. fold dk. lia.
  - lia.
Qed.

Lemma int_true_divide_multiple (k p : Z) :
  p <> 0 -> 0 < k < 2 ^ 52 ->
  F64.int_true_divide (k * p) p = Ok (F64.of_int32 k).
Proof.
  intros Hp Hk. unfold F64.int_true_divide.
  destruct (Z.eqb_spec p 0) as [|_]; [contradiction|].
  destruct k as [|k|k]; try lia.
  destruct p as [|p|p]; [contradiction| |]; simpl Z.mul; cbn [F64.raw_int];
    rewrite div_exact_pos by lia; simpl xorb;
    unfold F64.of_int32, binary_normalize;
    rewrite binary_round_nat by lia; reflexivity.
Qed.

Lemma int_true_divide_zero_multiple (p : Z) :
  p <> 0 -> exists s, F64.int_true_divide (0 * p) p = Ok (S754_zero s).
Proof.
  intros Hp. unfold F64.int_true_divide.
  destruct (Z.eqb_spec p 0) as [|_]; [contradiction|].
  destruct p as [|p|p]; [contradiction| |]; simpl; eauto.
Qed.

Lemma of_int32_shape (x : Z) :
  F64.is_int32 x ->
  (exists s, F64.of_int32 x = S754_zero s) \/
  (exists s m e, F64.of_int32 x = S754_finite s m e).
Proof.
  unfold F64.is_int32, F64.int32_min, F64.int32_max. intros Hx.
  destruct x as [|p|p]; [left; now exists false| |]; right;
    unfold F64.of_int32, binary_normalize; rewrite binary_round_nat by lia; eauto.
Qed.

Section ExactScale.

Variable unrepresentable : F64.f64 -> Z.

Lemma scale_by_integer (x k p : Z) :
  F64.is_int32 x -> F64.is_int32 (k * x) -> 0 <= k <= F64.int32_max ->
  p <> 0 ->
  exists r,
    F64.int_true_divide (k * p) p = Ok r /\
    F64.cast_int32 unrepresentable (F64.mul (F64.of_int32 x) r) = k * x.
Proof.
  intros Hx Hkx Hk Hp.
  assert (Hk' : k = 0 \/ 0 < k < 2 ^ 52)
    by (unfold F64.int32_max in Hk; lia).
  destruct Hk' as [->|Hk'].
  - destruct (int_true_divide_zero_multiple p Hp) as [s Hs].
    exists (S754_zero s). split; [assumption|].
    destruct (of_int32_shape x Hx) as [[sx ->]|[sx [m [e ->]]]]; reflexivity.
  - exists (F64.of_int32 k). split; [now apply int_true_divide_multiple|].
    rewrite <- (cast_of_int32 unrepresentable (k * x) Hkx). f_equal.
    unfold F64.is_int32, F64.int32_min, F64.int32_max in *.
    destruct k as [|k|k]; try lia.
    destruct x as [|x|x].
    + unfold F64.of_int32 at 2. unfold binary_normalize.
      rewrite binary_round_nat by lia. reflexivity.
    + unfold F64.of_int32, binary_normalize. simpl Z.mul.
      rewrite mul_exact_pos by lia. simpl xorb. now rewrite Pos.mul_comm.
    + unfold F64.of_int32, binary_normalize. simpl Z.mul.
      rewrite mul_exact_pos by lia. simpl xorb. now rewrite Pos.mul_comm.
Qed.

Lemma integer_scale_defined (k p : Z) :
  p <> 0 -> 0 <= k <= F64.int32_max ->
  exists r, F64.int_true_divide (k * p) p = Ok r.
Proof.
  intros Hp Hk.
  assert (Hk' : k = 0 \/ 0 < k < 2 ^ 52)
    by (unfold F64.int32_max in Hk; lia).
  destruct Hk' as [->|Hk'].
  - destruct (int_true_divide_zero_multiple p Hp) as [s Hs]. eauto.
  - rewrite int_true_divide_multiple by assumption. eauto.
Qed.

Lemma truncate_scaled_by_integer (contours : list contour)
    (pred_height pred_width kx ky : Z) (x_scale y_scale : F64.f64) :
  pred_height <> 0 -> pred_width <> 0 ->
  0 <= kx <= F64.int32_max -> 0 <= ky <= F64.int32_max ->
  Forall int32_contour contours ->
  Forall int32_contour (map (stretch kx ky) contours) ->
  F64.int_true_divide (ky * pred_height) pred_height = Ok y_scale ->
  F64.int_true_divide (kx * pred_width) pred_width = Ok x_scale ->
  map (truncate_scaled unrepresentable x_scale y_scale) contours =
  map (stretch kx ky) contours.
Proof.
  intros Hph Hpw Hkx Hky Hc Hs Hyr Hxr.
  induction Hc as [|c rest Hc _ IH]; simpl in *; [reflexivity|].
  inversion Hs as [|? ? Hsc Hsrest]; subst. rewrite IH by assumption.
  f_equal. clear -Hc Hsc Hyr Hxr Hkx Hky Hph Hpw.
  unfold truncate_scaled, stretch in *.
  induction Hc as [|[x y] pts [Hx Hy] _ IH]; simpl in *; [reflexivity|].
  inversion Hsc as [|? ? [Hsx Hsy] Hspts]; subst.
  rewrite IH by assumption. unfold px, py in *. simpl in *.
  destruct (scale_by_integer x kx pred_width Hx Hsx Hkx Hpw) as [xr' [Hxr' Ex]].
  destruct (scale_by_integer y ky pred_height Hy Hsy Hky Hph) as [yr' [Hyr' Ey]].
  rewrite Hxr in Hxr'. rewrite Hyr in Hyr'.
  injection Hxr' as <-. injection Hyr' as <-. now rewrite Ex, Ey.
Qed.

(** X7. When the image is an integer multiple of the prediction resolution
    ([kx] times its width, [ky] times its height), rescaling multiplies
    every coordinate by that factor, exactly. *)
Theorem rescale_contours_integer_factor (contours : list contour)
    (pred_height pred_width kx ky : Z) :
  pred_height <> 0 -> pred_width <> 0 ->
  0 <= kx <= F64.int32_max -> 0 <= ky <= F64.int32_max ->
  Forall int32_contour contours ->
  Forall int32_contour (map (stretch kx ky) contours) ->
  rescale_contours unrepresentable contours pred_height pred_width
    (ky * pred_height) (kx * pred_width) =
  Ok (map (stretch kx ky) contours).
Proof.
  intros Hph Hpw Hkx Hky Hc Hs. rewrite rescale_contours_truncates.
  destruct (integer_scale_defined ky pred_height Hph Hky) as [yr Hyr].
  destruct (integer_scale_defined kx pred_width Hpw Hkx) as [xr Hxr].
  rewrite Hyr, Hxr. simpl. f_equal.
  now apply (truncate_scaled_by_integer contours pred_height pred_width).
Qed.

End ExactScale.

(** ** Thresholding: the order of floats *)

Ltac compare_cases :=
  change IntDef.Z.compare with Z.compare in *;
  change (PosDef.Pos.compare_cont Eq) with Pos.compare in *;
  repeat match goal with
         | H : context [Z.compare ?x ?y] |- _ => destruct (Z.compare_spec x y)
         | |- context [Z.compare ?x ?y] => destruct (Z.compare_spec x y)
         | H : context [Pos.compare ?x ?y] |- _ => destruct (Pos.compare_spec x y)
         | |- context [Pos.compare ?x ?y] => destruct (Pos.compare_spec x y)
         end;
  simpl in *; try discriminate; try reflexivity; try lia.

Lemma SFleb_ltb_trans (a b c : spec_float) :
  SFleb a b = true -> SFltb b c = true -> SFltb a c = true.
Proof.
  unfold SFleb, SFltb.
  destruct a as [sa|sa| |sa ma ea], b as [sb|sb| |sb mb eb],
           c as [sc|sc| |sc mc ec];
    simpl; try discriminate; try reflexivity;
    try destruct sa; try destruct sb; try destruct sc;
    simpl; try discriminate; try reflexivity;
    intros H1 H2; compare_cases.
Qed.

(** X11. Lowering the threshold keeps every foreground pixel: a pixel that
    is foreground for a threshold is foreground for every smaller one. *)
Theorem mask_preprocess_threshold_monotone (pred : prob_map)
    (t1 t2 : F64.f64) (i j : nat) :
  SFleb t1 t2 = true ->
  pixel (mask_preprocess pred t2) i j = Some true ->
  pixel (mask_preprocess pred t1) i j = Some true.
Proof.
  intros Hle. unfold mask_preprocess. rewrite !pixel_map.
  destruct (pixel pred i j) as [p|]; simpl; [|discriminate].
  intros [= H]. f_equal. unfold F64.gt in *.
  now apply (SFleb_ltb_trans t1 t2 p).
Qed.

(** X12. A NaN probability is background, a NaN threshold leaves no
    foreground, and the mask has exactly the pixels of the map. *)
Theorem mask_preprocess_nan (pred : prob_map) (thr : F64.f64) (i j : nat) :
  (pixel pred i j = Some S754_nan ->
   pixel (mask_preprocess pred thr) i j = Some false)
  /\ (thr = S754_nan ->
      pixel (mask_preprocess pred thr) i j <> Some true)
  /\ (pixel (mask_preprocess pred thr) i j = None <-> pixel pred i j = None).
Proof.
  unfold mask_preprocess. rewrite pixel_map. split; [|split].
  - intros ->. simpl. unfold F64.gt, SFltb. now destruct thr.
  - intros ->. destruct (pixel pred i j) as [p|]; simpl; [|discriminate].
    unfold F64.gt, SFltb. simpl. discriminate.
  - destruct (pixel pred i j); simpl; split; congruence.
Qed.

(** ** The class postprocessor at integer factors *)

Section ExactPostprocess.

Variable findContours : list (list Z) -> list contour.
Variable unrepresentable : F64.f64 -> Z.


End ExactPostprocess.

(** ** [load_pretrain_model] *)

Lemma dict_contains_getitem {V : Type} (d : list (string * V)) (key : string) :
  dict_contains d key = true <-> exists v, dict_getitem d key = Ok v.
Proof.
  induction d as [|[k v] rest IH]; simpl.
  - split; [discriminate|intros [v H]; discriminate].
  - destruct (String.eqb k key); [|exact IH]. split; eauto.
Qed.

Lemma dict_getitem_app_skip {V : Type} (pre d : list (string * V)) (key : string) :
  ~ In key (map fst pre) ->
  dict_getitem (pre ++ d) key = dict_getitem d key.
Proof.
  induction pre as [|[k v] pre IH]; simpl; intros Hnot; [reflexivity|].
  destruct (String.eqb_spec k key) as [->|_]; [exfalso; auto|auto].
Qed.

Lemma dict_setitem_app_skip {V : Type} (pre d : list (string * V))
    (key : string) (v : V) :
  ~ In key (map fst pre) ->
  dict_setitem (pre ++ d) key v = pre ++ dict_setitem d key v.
Proof.
  induction pre as [|[k x] pre IH]; simpl; intros Hnot; [reflexivity|].
  destruct (String.eqb_spec k key) as [->|_]; [exfalso; auto|].
  now rewrite IH by auto.
Qed.

Lemma load_loop_spec (old_dict : state_dict) (items : list (string * tensor)) :
  forall pre printed,
    NoDup (map fst (pre ++ items)) ->
    load_loop old_dict items (pre ++ items) printed =
    Ok (pre ++ map (fun kv => (fst kv, loaded_value old_dict kv)) items,
        printed ++
        map (fun kv => not_loaded_message (fst kv))
            (filter (fun kv => negb (is_loaded old_dict kv)) items)).
Proof.
  induction items as [|[key weights] rest IH]; intros pre printed Hnd.
  - simpl. now rewrite !app_nil_r.
  - assert (Hnot : ~ In key (map fst pre)).
    { rewrite map_app in Hnd. simpl in Hnd. apply NoDup_remove_2 in Hnd.
      intros Hin. apply Hnd. apply in_or_app. now left. }
    cbn [load_loop]. unfold is_loaded, loaded_value. cbn [filter map fst snd].
    destruct (dict_contains old_dict key) eqn:Hc.
    + apply dict_contains_getitem in Hc. destruct Hc as [theirs Ht].
      rewrite dict_getitem_app_skip by assumption. simpl dict_getitem.
      rewrite String.eqb_refl, Ht. simpl.
      destruct (shape_eqb (tensor_shape weights) (tensor_shape theirs)); simpl.
      * rewrite dict_setitem_app_skip by assumption. simpl dict_setitem.
        rewrite String.eqb_refl.
        replace (pre ++ (key, theirs) :: rest)
          with ((pre ++ [(key, theirs)]) ++ rest) by now rewrite <- app_assoc.
        rewrite IH.
        -- now rewrite <- app_assoc.
        -- rewrite <- app_assoc. simpl.
           rewrite map_app in *. simpl in *. exact Hnd.
      * replace (pre ++ (key, weights) :: rest)
          with ((pre ++ [(key, weights)]) ++ rest) by now rewrite <- app_assoc.
        rewrite IH.
        -- now rewrite <- !app_assoc.
        -- now rewrite <- app_assoc.
    + assert (Hg : dict_getitem old_dict key = Raise KeyError).
      { destruct (dict_getitem old_dict key) as [v|e] eqn:E.
        - assert (dict_contains old_dict key = true)
            by (apply dict_contains_getitem; eauto).
          congruence.
        - clear -E. induction old_dict as [|[k v] d IH]; simpl in E.
          + congruence.
          + destruct (String.eqb k key); [discriminate|auto]. }
      rewrite Hg. simpl.
      replace (pre ++ (key, weights) :: rest)
        with ((pre ++ [(key, weights)]) ++ rest) by now rewrite <- app_assoc.
      rewrite IH.
      * now rewrite <- !app_assoc.
      * now rewrite <- app_assoc.
Qed.

Lemma load_pretrain_model_spec (old_dict new_dict : state_dict) :
  NoDup (map fst new_dict) ->
  load_pretrain_model old_dict new_dict =
  Ok (map (fun kv => (fst kv, loaded_value old_dict kv)) new_dict,
      map (fun kv => not_loaded_message (fst kv))
          (filter (fun kv => negb (is_loaded old_dict kv)) new_dict)).
Proof.
  intros Hnd. unfold load_pretrain_model.
  apply (load_loop_spec old_dict new_dict [] []). exact Hnd.
Qed.

Lemma shape_eqb_eq (s1 s2 : list Z) : shape_eqb s1 s2 = true <-> s1 = s2.
Proof.
  unfold shape_eqb. destruct (list_eq_dec Z.eq_dec s1 s2); split;
    congruence.
Qed.


Lemma dict_getitem_map_values {V : Type} (g : string * V -> V)
    (d : list (string * V)) (key : string) :
  dict_getitem (map (fun kv => (fst kv, g kv)) d) key =
  (v <- dict_getitem d key ;; Ok (g (key, v))).
Proof.
  induction d as [|[k v] rest IH]; simpl; [reflexivity|].
  destruct (String.eqb_spec k key) as [->|_]; [reflexivity|exact IH].
Qed.

Lemma dict_getitem_own {V : Type} (d : list (string * V)) (kv : string * V) :
  NoDup (map fst d) -> In kv d -> dict_getitem d (fst kv) = Ok (snd kv).
Proof.
  induction d as [|[k v] rest IH]; simpl; intros Hnd Hin; [contradiction|].
  inversion Hnd as [|? ? Hnot Hrest]; subst.
  destruct Hin as [<-|Hin]; simpl.
  - now rewrite String.eqb_refl.
  - destruct (String.eqb_spec k (fst kv)) as [->|_]; [|auto].
    exfalso. apply Hnot. now apply in_map.
Qed.

Lemma filter_negb_none {A : Type} (f : A -> bool) (l : list A) :
  (forall a, In a l -> f a = true) -> filter (fun a => negb (f a)) l = [].
Proof.
  induction l as [|a rest IH]; simpl; intros H; [reflexivity|].
  rewrite (H a) by now left. simpl. apply IH. intros b Hb. apply H. now right.
Qed.


(** X18. What [load_pretrain_model] returns under a key: the checkpoint's
    tensor when the checkpoint has the key with the model's shape, the
    model's tensor otherwise; a key of the checkpoint that the model does
    not have is not in the result. *)
Theorem load_pretrain_model_values (old_dict new_dict result : state_dict)
    (printed : list string) :
  NoDup (map fst new_dict) ->
  load_pretrain_model old_dict new_dict = Ok (result, printed) ->
  forall key,
    dict_getitem result key =
    (mine <- dict_getitem new_dict key ;;
     match dict_getitem old_dict key with
     | Ok theirs =>
         if shape_eqb (tensor_shape mine) (tensor_shape theirs)
         then Ok theirs else Ok mine
     | Raise _ => Ok mine
     end).
Proof.
  intros Hnd. rewrite load_pretrain_model_spec by assumption.
  intros [= <- _] key. rewrite dict_getitem_map_values.
  destruct (dict_getitem new_dict key) as [mine|]; simpl; [|reflexivity].
  unfold loaded_value. simpl.
  destruct (dict_getitem old_dict key) as [theirs|]; [|reflexivity].
  now destruct (shape_eqb _ _).
Qed.

(** X19. When the checkpoint has every parameter of the model with the
    model's shape, every tensor returned is the checkpoint's and nothing is
    printed. *)
Theorem load_pretrain_model_complete (old_dict new_dict : state_dict) :
  NoDup (map fst new_dict) ->
  (forall key mine,
      dict_getitem new_dict key = Ok mine ->
      exists theirs,
        dict_getitem old_dict key = Ok theirs /\
        tensor_shape theirs = tensor_shape mine) ->
  exists result,
    load_pretrain_model old_dict new_dict = Ok (result, []) /\
    map fst result = map fst new_dict /\
    forall key mine,
      dict_getitem new_dict key = Ok mine ->
      dict_getitem result key = dict_getitem old_dict key.
Proof.
  intros Hnd Hall. rewrite load_pretrain_model_spec by assumption.
  assert (Hloaded : forall kv, In kv new_dict -> is_loaded old_dict kv = true).
  { intros kv Hin. unfold is_loaded.
    destruct (Hall (fst kv) (snd kv) (dict_getitem_own _ _ Hnd Hin))
      as [theirs [-> Hs]].
    apply shape_eqb_eq. congruence. }
  eexists. split; [|split].
  - f_equal. f_equal.
    now rewrite filter_negb_none.
  - rewrite map_map. reflexivity.
  - intros key mine Hmine. rewrite dict_getitem_map_values, Hmine. simpl.
    unfold loaded_value. simpl.
    destruct (Hall key mine Hmine) as [theirs [-> Hs]].
    assert (E : shape_eqb (tensor_shape mine) (tensor_shape theirs) = true)
      by (apply shape_eqb_eq; congruence).
    now rewrite E.
Qed.

(** X20. Loading the same checkpoint into the result once more returns the
    same result and prints the same lines. *)
Theorem load_pretrain_model_idempotent (old_dict new_dict result : state_dict)
    (printed : list string) :
  NoDup (map fst new_dict) ->
  load_pretrain_model old_dict new_dict = Ok (result, printed) ->
  load_pretrain_model old_dict result = Ok (result, printed).
Proof.
  intros Hnd. rewrite load_pretrain_model_spec by assumption.
  intros [= <- <-]. rewrite load_pretrain_model_spec
    by (rewrite map_map; simpl; exact Hnd).
  assert (Hv : forall kv,
             loaded_value old_dict (fst kv, loaded_value old_dict kv) =
             loaded_value old_dict kv).
  { intros [k v]. unfold loaded_value. simpl.
    destruct (dict_getitem old_dict k) as [theirs|]; [|reflexivity].
    destruct (shape_eqb (tensor_shape v) (tensor_shape theirs)) eqn:E.
    - assert (E' : shape_eqb (tensor_shape theirs) (tensor_shape theirs) = true)
        by now apply shape_eqb_eq.
      now rewrite E'.
    - now rewrite E. }
  assert (Hl : forall kv,
             is_loaded old_dict (fst kv, loaded_value old_dict kv) =
             is_loaded old_dict kv).
  { intros [k v]. unfold is_loaded, loaded_value. simpl.
    destruct (dict_getitem old_dict k) as [theirs|]; [|reflexivity].
    destruct (shape_eqb (tensor_shape v) (tensor_shape theirs)) eqn:E.
    - now apply shape_eqb_eq.
    - exact E. }
  f_equal. f_equal.
  - rewrite map_map. apply map_ext. intros kv. simpl. now rewrite Hv.
  - clear Hnd. induction new_dict as [|kv rest IH]; simpl; [reflexivity|].
    rewrite Hl. destruct (is_loaded old_dict kv); simpl; [exact IH|].
    now rewrite IH.
Qed.

(** X21. Loading a model's own state dict returns it unchanged and prints
    nothing. *)
Theorem load_pretrain_model_own_state (new_dict : state_dict) :
  NoDup (map fst new_dict) ->
  load_pretrain_model new_dict new_dict = Ok (new_dict, []).
Proof.
  intros Hnd. rewrite load_pretrain_model_spec by assumption.
  assert (Hown : forall kv, In kv new_dict ->
                   is_loaded new_dict kv = true /\
                   loaded_value new_dict kv = snd kv).
  { intros kv Hin. unfold is_loaded, loaded_value.
    rewrite (dict_getitem_own _ _ Hnd Hin).
    assert (E : shape_eqb (tensor_shape (snd kv)) (tensor_shape (snd kv)) = true)
      by now apply shape_eqb_eq.
    now rewrite E. }
  f_equal. f_equal.
  - transitivity (map (fun kv : string * tensor => kv) new_dict);
      [|apply map_id].
    apply map_ext_in. intros [k v] Hin. simpl.
    now rewrite (proj2 (Hown _ Hin)).
  - rewrite filter_negb_none; [reflexivity|].
    intros kv Hin. apply (Hown kv Hin).
Qed.

(** ** [FilesLimitControl] *)

Lemma FilesLimitControl_call_paths (self : files_limit_control)
    (fs : filesystem) (p : string) :
  saved_weights_paths (control_after (FilesLimitControl_call self fs p)) =
  (if max_weights_to_save self <?
      Z.of_nat (List.length (saved_weights_paths self ++ [p]))
   then tl (saved_weights_paths self ++ [p])
   else saved_weights_paths self ++ [p])
  /\ max_weights_to_save (control_after (FilesLimitControl_call self fs p)) =
     max_weights_to_save self.
Proof.
  unfold FilesLimitControl_call.
  destruct (max_weights_to_save self <? _); [|split; reflexivity].
  destruct (saved_weights_paths self ++ [p]) as [|old rest] eqn:E.
  - destruct (saved_weights_paths self); discriminate.
  - destruct (os_path_exists fs old); [|split; reflexivity].
    destruct (os_remove fs old); split; reflexivity.
Qed.

Lemma tl_skipn_snoc {A : Type} (k : nat) (l : list A) (p : A) :
  (k <= List.length l)%nat ->
  tl (skipn k l ++ [p]) = skipn (S k) (l ++ [p]).
Proof.
  revert k. induction l as [|a l IH]; intros [|k] Hk; simpl in *;
    try lia; try reflexivity.
  rewrite <- IH by lia. reflexivity.
Qed.

Lemma FilesLimitControl_calls_window (paths : list string) :
  forall self fs history,
    saved_weights_paths self =
    skipn (List.length history - Z.to_nat (max_weights_to_save self)) history ->
    let final := fst (FilesLimitControl_calls self fs paths) in
    saved_weights_paths final =
    skipn (List.length (history ++ paths) -
           Z.to_nat (max_weights_to_save self)) (history ++ paths)
    /\ max_weights_to_save final = max_weights_to_save self.
Proof.
  induction paths as [|p rest IH]; intros self fs history Hinv; simpl.
  - now rewrite app_nil_r.
  - destruct (FilesLimitControl_call_paths self fs p) as [Hs Hm].
    set (step := FilesLimitControl_call self fs p) in *.
    specialize (IH (control_after step) (fs_after step) (history ++ [p])).
    rewrite Hm, <- app_assoc in IH. simpl in IH. apply IH. clear IH.
    rewrite Hs, Hinv. set (m := Z.to_nat (max_weights_to_save self)).
    rewrite !length_app, length_skipn. simpl.
    destruct (Z.ltb_spec (max_weights_to_save self)
                (Z.of_nat (List.length history -
                           (List.length history - m) + 1))) as [Hover|Hfits].
    + assert (Hm' : (m <= List.length history)%nat) by lia.
      rewrite tl_skipn_snoc by lia. f_equal. lia.
    + assert (Hm' : (List.length history < m)%nat) by lia.
      replace (List.length history - m)%nat with 0%nat by lia.
      replace (List.length history + 1 - m)%nat with 0%nat by lia.
      reflexivity.
Qed.

(** X22. After any sequence of calls on a new object the paths kept are
    the last [max_weights_to_save] paths passed, in order (none for a limit
    of zero or less), whatever the file system holds. *)
Theorem FilesLimitControl_sliding_window (limit : Z) (fs : filesystem)
    (paths : list string) :
  let final :=
    fst (FilesLimitControl_calls (FilesLimitControl_init limit) fs paths) in
  saved_weights_paths final =
  skipn (List.length paths - Z.to_nat limit) paths
  /\ List.length (saved_weights_paths final) =
     Nat.min (List.length paths) (Z.to_nat limit)
  /\ max_weights_to_save final = limit.
Proof.
  destruct (FilesLimitControl_calls_window paths
              (FilesLimitControl_init limit) fs [] eq_refl) as [Hs Hm].
  simpl in *. rewrite Hs. split; [reflexivity|]. split; [|exact Hm].
  rewrite length_skipn. lia.
Qed.

(** X23. One call changes the file system at most at the oldest path kept
    (or the path passed, when none is kept): a path is changed only by the
    removal of a regular file; below the limit nothing is removed, printed or
    raised and the path is added at the end. *)
Theorem FilesLimitControl_call_frame (self : files_limit_control)
    (fs : filesystem) (save_path : string) :
  let step := FilesLimitControl_call self fs save_path in
  (forall q, q <> hd save_path (saved_weights_paths self) ->
             fs_after step q = fs q)
  /\ (forall q, fs_after step q <> fs q ->
                fs q = Some RegularFile /\ fs_after step q = None)
  /\ (Z.of_nat (List.length (saved_weights_paths self)) <
      max_weights_to_save self ->
      saved_weights_paths (control_after step) =
      saved_weights_paths self ++ [save_path] /\
      (forall q, fs_after step q = fs q) /\
      step_printed step = [] /\ step_raised step = None).
Proof.
  unfold FilesLimitControl_call.
  assert (Hhd : forall old rest,
             saved_weights_paths self ++ [save_path] = old :: rest ->
             old = hd save_path (saved_weights_paths self)).
  { intros old rest E. destruct (saved_weights_paths self); simpl in *;
      congruence. }
  rewrite length_app. simpl List.length.
  destruct (Z.ltb_spec (max_weights_to_save self)
              (Z.of_nat (List.length (saved_weights_paths self) + 1)))
    as [Hover|Hfits].
  - destruct (saved_weights_paths self ++ [save_path]) as [|old rest] eqn:E.
    + destruct (saved_weights_paths self); discriminate.
    + specialize (Hhd old rest eq_refl).
      unfold os_path_exists, os_remove.
      destruct (fs old) as [[|]|] eqn:Eold; simpl.
      * split; [|split; [|lia]].
        -- intros q Hq. destruct (String.eqb_spec q old); congruence.
        -- intros q. destruct (String.eqb_spec q old) as [->|_];
             [intros _; now split|congruence].
      * split; [reflexivity|]. split; [congruence|lia].
      * split; [reflexivity|]. split; [congruence|lia].
  - simpl. split; [reflexivity|]. split; [congruence|].
    intros _. repeat split.
Qed.

(** X24. When the limit is reached and the oldest path kept is the path
    passed, the file just saved under it is removed while the path stays
    in the list. *)
Theorem FilesLimitControl_call_same_path (self : files_limit_control)
    (fs : filesystem) (save_path : string) (rest : list string) :
  saved_weights_paths self = save_path :: rest ->
  max_weights_to_save self <=
  Z.of_nat (List.length (saved_weights_paths self)) ->
  fs save_path = Some RegularFile ->
  let step := FilesLimitControl_call self fs save_path in
  fs_after step save_path = None
  /\ saved_weights_paths (control_after step) = rest ++ [save_path]
  /\ step_printed step = [removed_message save_path]
  /\ step_raised step = None.
Proof.
  intros Hs Hfull Hfile. unfold FilesLimitControl_call.
  rewrite length_app. simpl List.length.
  destruct (Z.ltb_spec (max_weights_to_save self)
              (Z.of_nat (List.length (saved_weights_paths self) + 1)))
    as [_|Hfits]; [|lia].
  rewrite Hs. simpl. unfold os_path_exists, os_remove. rewrite Hfile. simpl.
  now rewrite String.eqb_refl.
Qed.

Lemma FilesLimitControl_call_fs (self : files_limit_control)
    (fs : filesystem) (save_path : string) :
  let step := FilesLimitControl_call self fs save_path in
  let old := hd save_path (saved_weights_paths self) in
  fs_after step = fs \/
  (saved_weights_paths (control_after step) =
   tl (saved_weights_paths self ++ [save_path]) /\
   fs_after step = (fun q => if String.eqb q old then None else fs q)).
Proof.
  unfold FilesLimitControl_call.
  destruct (max_weights_to_save self <? _); [|now left].
  destruct (saved_weights_paths self ++ [save_path]) as [|old rest] eqn:E;
    [now left|].
  assert (Hhd : old = hd save_path (saved_weights_paths self)).
  { destruct (saved_weights_paths self); simpl in *; congruence. }
  unfold os_path_exists, os_remove.
  destruct (fs old) as [[|]|]; simpl; [|now left|now left].
  right. rewrite <- Hhd. now split.
Qed.

(** X25. When the paths kept are distinct and the path passed is new, the
    paths kept after the call are distinct and no file under them has been
    touched. *)
Theorem FilesLimitControl_call_distinct (self : files_limit_control)
    (fs : filesystem) (save_path : string) :
  NoDup (saved_weights_paths self) ->
  ~ In save_path (saved_weights_paths self) ->
  let step := FilesLimitControl_call self fs save_path in
  NoDup (saved_weights_paths (control_after step))
  /\ forall q, In q (saved_weights_paths (control_after step)) ->
               fs_after step q = fs q.
Proof.
  intros Hnd Hnew step. subst step.
  assert (Hall : NoDup (saved_weights_paths self ++ [save_path])).
  { apply NoDup_app; [assumption|repeat constructor; intros []|].
    intros x Hx [<-|[]]. contradiction. }
  destruct (FilesLimitControl_call_paths self fs save_path) as [Hs _].
  split.
  - rewrite Hs. destruct (_ <? _); [|assumption].
    destruct (saved_weights_paths self ++ [save_path]); simpl; [constructor|].
    now inversion Hall.
  - intros q Hq.
    destruct (FilesLimitControl_call_fs self fs save_path) as [->|[Ht ->]];
      [reflexivity|].
    rewrite Ht in Hq.
    destruct (String.eqb_spec q (hd save_path (saved_weights_paths self)))
      as [->|_]; [|reflexivity].
    exfalso. destruct (saved_weights_paths self) as [|old rest]; simpl in *.
    + contradiction.
    + inversion Hall as [|? ? Hnot _]; subst. contradiction.
Qed.

(** X26. When the removal raises (the oldest path is a directory), the
    path has already been dropped from the list and the new one added; the
    file system is unchanged and nothing is printed. *)
Theorem FilesLimitControl_call_remove_fails (self : files_limit_control)
    (fs : filesystem) (save_path old : string) (rest : list string) :
  saved_weights_paths self = old :: rest ->
  max_weights_to_save self <=
  Z.of_nat (List.length (saved_weights_paths self)) ->
  fs old = Some Directory ->
  let step := FilesLimitControl_call self fs save_path in
  step_raised step = Some (CollaboratorError "OSError")
  /\ saved_weights_paths (control_after step) = rest ++ [save_path]
  /\ (forall q, fs_after step q = fs q)
  /\ step_printed step = [].
Proof.
  intros Hs Hfull Hdir. unfold FilesLimitControl_call.
  rewrite length_app. simpl List.length.
  destruct (Z.ltb_spec (max_weights_to_save self)
              (Z.of_nat (List.length (saved_weights_paths self) + 1)))
    as [_|Hfits]; [|lia].
  rewrite Hs. simpl. unfold os_path_exists, os_remove. rewrite Hdir. simpl.
  repeat split.
Qed.

(** ** [AverageMeter] *)

Lemma AverageMeter_update_ints (self : average_meter) (s c v n : Z) :
  meter_sum self = PyInt s -> meter_count self = PyInt c ->
  AverageMeter_update self (PyInt v) (PyInt n) =
  match F64.int_true_divide (s + v * n) (c + n) with
  | Ok q =>
      ({| meter_avg := PyFloat q; meter_sum := PyInt (s + v * n);
          meter_count := PyInt (c + n) |}, None)
  | Raise e =>
      ({| meter_avg := meter_avg self; meter_sum := PyInt (s + v * n);
          meter_count := PyInt (c + n) |}, Some e)
  end.
Proof.
  intros Hs Hc. unfold AverageMeter_update. rewrite Hs. simpl. rewrite Hc.
  simpl. now destruct (F64.int_true_divide (s + v * n) (c + n)).
Qed.

Lemma AverageMeter_updates_ints (updates : list (Z * Z)) :
  forall self s c,
    meter_sum self = PyInt s -> meter_count self = PyInt c ->
    let final := AverageMeter_updates self (map int_update updates) in
    meter_sum final = PyInt (s + weighted_sum updates) /\
    meter_count final = PyInt (c + total_weight updates) /\
    (updates <> [] ->
     forall q,
       F64.int_true_divide (s + weighted_sum updates)
                           (c + total_weight updates) = Ok q ->
       meter_avg final = PyFloat q).
Proof.
  induction updates as [|[v n] rest IH]; intros self s c Hs Hc; simpl.
  - rewrite !Z.add_0_r. repeat split; try assumption. congruence.
  - rewrite (AverageMeter_update_ints self s c v n Hs Hc).
    destruct (F64.int_true_divide (s + v * n) (c + n)) as [q0|e0] eqn:E0;
      simpl.
    + match goal with
      | |- context [AverageMeter_updates ?m _] =>
          destruct (IH m (s + v * n) (c + n) eq_refl eq_refl) as [H1 [H2 H3]]
      end.
      rewrite H1, H2. split; [f_equal; lia|]. split; [f_equal; lia|].
      intros _ q Hq. destruct rest as [|x rest'].
      * simpl in *. rewrite !Z.add_0_r in Hq. congruence.
      * apply H3; [discriminate|].
        rewrite <- Hq. f_equal; lia.
    + match goal with
      | |- context [AverageMeter_updates ?m _] =>
          destruct (IH m (s + v * n) (c + n) eq_refl eq_refl) as [H1 [H2 H3]]
      end.
      rewrite H1, H2. split; [f_equal; lia|]. split; [f_equal; lia|].
      intros _ q Hq. destruct rest as [|x rest'].
      * simpl in *. rewrite !Z.add_0_r in Hq. congruence.
      * apply H3; [discriminate|].
        rewrite <- Hq. f_equal; lia.
Qed.

(** X27. With integer values and weights the meter's [sum] and [count]
    are the exact totals after any sequence of updates, whether or not some
    of them raised, and [avg] is the correctly rounded quotient of the totals
    when the last division is defined. *)
Theorem AverageMeter_exact_totals (updates : list (Z * Z)) :
  let final :=
    AverageMeter_updates AverageMeter_reset (map int_update updates) in
  meter_sum final = PyInt (weighted_sum updates)
  /\ meter_count final = PyInt (total_weight updates)
  /\ (updates <> [] ->
      forall q,
        F64.int_true_divide (weighted_sum updates) (total_weight updates) =
        Ok q ->
        meter_avg final = PyFloat q).
Proof.
  apply (AverageMeter_updates_ints updates AverageMeter_reset 0 0);
    reflexivity.
Qed.


Lemma int_true_divide_multiple_signed (k p : Z) :
  0 < p -> - 2 ^ 52 < k < 2 ^ 52 ->
  F64.int_true_divide (k * p) p = Ok (F64.of_int32 k).
Proof.
  intros Hp Hk. destruct k as [|k|k].
  - destruct p; try lia. reflexivity.
  - apply int_true_divide_multiple; lia.
  - unfold F64.int_true_divide.
    destruct (Z.eqb_spec p 0) as [|_]; [lia|].
    destruct p as [|p|p]; try lia. simpl Z.mul. cbn [F64.raw_int].
    rewrite div_exact_pos by lia. simpl xorb.
    unfold F64.of_int32, binary_normalize.
    rewrite binary_round_nat by lia. reflexivity.
Qed.

Lemma constant_weighted_sum (v : Z) (weights : list Z) :
  weighted_sum (map (fun n => (v, n)) weights) =
  v * total_weight (map (fun n => (v, n)) weights).
Proof.
  induction weights as [|n rest IH]; simpl; [lia|]. rewrite IH. ring.
Qed.

Lemma constant_total_weight (v : Z) (weights : list Z) :
  total_weight (map (fun n => (v, n)) weights) = fold_right Z.add 0 weights.
Proof. induction weights as [|n rest IH]; simpl; [reflexivity|now rewrite IH]. Qed.

(** X29. Updates with one integer value (of magnitude below 2^52) and
    integer weights of positive total give exactly that value, as a float,
    as [avg]. *)
Theorem AverageMeter_constant_values (v : Z) (weights : list Z) :
  - 2 ^ 52 < v < 2 ^ 52 ->
  0 < fold_right Z.add 0 weights ->
  meter_avg
    (AverageMeter_updates AverageMeter_reset
       (map (fun n => (PyInt v, PyInt n)) weights)) =
  PyFloat (F64.of_int32 v).
Proof.
  intros Hv Hw. rewrite <- (constant_total_weight v) in Hw.
  replace (map (fun n => (PyInt v, PyInt n)) weights)
    with (map int_update (map (fun n => (v, n)) weights))
    by (rewrite map_map; reflexivity).
  destruct (AverageMeter_updates_ints (map (fun n => (v, n)) weights)
              AverageMeter_reset 0 0 eq_refl eq_refl) as [_ [_ Havg]].
  apply Havg.
  - destruct weights; [simpl in Hw; lia|discriminate].
  - simpl. rewrite constant_weighted_sum.
    now apply int_true_divide_multiple_signed.
Qed.

(** ** Concrete runs of the further properties *)


(** X2 at a concrete input. *)
Lemma contour2bbox_same_points_witness :
  square <> [] /\
  contour2bbox square = contour2bbox ((5, 5) :: rev square).
Proof.
  split; [discriminate|].
  apply (contour2bbox_same_points square ((5, 5) :: rev square));
    [discriminate|].
  intros p. simpl. tauto.
Defined.

(** X3 at a concrete input. *)
Lemma contour2bbox_translate_witness :
  square <> [] /\
  contour2bbox (translate 3 (-1) square) = translate_bbox 3 (-1) (2, 2, 6, 6).
Proof.
  split; [discriminate|].
  apply (contour2bbox_translate 3 (-1) square). discriminate.
Defined.

(** X4 at a concrete input. *)
Lemma get_contours_from_mask_monotone_witness :
  (5 <= 9)%Q /\
  get_contours_from_mask findContours_blob (mask_preprocess blob_map half) 9 =
  filter (area_at_least 9)
    (get_contours_from_mask findContours_blob (mask_preprocess blob_map half) 5).
Proof.
  assert (H : (5 <= 9)%Q) by (unfold Qle; simpl; lia).
  split; [exact H|].
  apply (proj1 (get_contours_from_mask_monotone findContours_blob
                  (mask_preprocess blob_map half) 5 9 H)).
Defined.

(** X7 at a concrete input. *)
Lemma rescale_contours_integer_factor_witness :
  10 <> 0 /\ 0 <= 2 <= F64.int32_max /\
  rescale_contours unrepresentable_x86 [square] 10 10 (2 * 10) (2 * 10) =
  Ok [[(4, 4); (4, 10); (10, 10); (10, 4)]].
Proof.
  assert (Hk : 0 <= 2 <= F64.int32_max) by (vm_compute; split; discriminate).
  split; [lia|]. split; [exact Hk|].
  apply (rescale_contours_integer_factor unrepresentable_x86 [square] 10 10 2 2);
    try lia; try exact Hk;
    repeat constructor; vm_compute; discriminate.
Defined.

(** X8 at a concrete input. *)
Lemma get_contours_from_predictions_parallel_witness :
  get_contours_from_predictions findContours_blob unrepresentable_x86
    blob_map field_params 10 10 11 11 = Ok ([square], [(2, 2, 6, 6)]) /\
  List.length [square] = List.length [(2, 2, 6, 6)].
Proof.
  assert (H : get_contours_from_predictions findContours_blob
                unrepresentable_x86 blob_map field_params 10 10 11 11 =
              Ok ([square], [(2, 2, 6, 6)])) by (vm_compute; reflexivity).
  split; [exact H|].
  apply (proj1 (get_contours_from_predictions_parallel unrepresentable_x86
                  findContours_blob blob_map field_params 10 10 11 11 _ _ H)).
Defined.

(** X9 at a concrete input. *)
Lemma get_contours_from_predictions_background_witness :
  get_contours_from_predictions findContours_blob unrepresentable_x86
    (repeat (repeat zero 10) 10) field_params 10 10 20 20 = Ok ([], []).
Proof.
  apply (get_contours_from_predictions_background unrepresentable_x86
           findContours_blob (repeat (repeat zero 10) 10) field_params
           10 10 20 20
           (S754_finite false 4503599627370496 (-51))
           (S754_finite false 4503599627370496 (-51))).
  - intros row p Hrow Hp. apply repeat_spec in Hrow. subst row.
    apply repeat_spec in Hp. subst p. reflexivity.
  - vm_compute. reflexivity.
  - vm_compute. reflexivity.
  - vm_compute. reflexivity.
Defined.


(** X11 at a concrete input. *)
Lemma mask_preprocess_threshold_monotone_witness :
  SFleb zero half = true /\
  pixel (mask_preprocess blob_map half) 2 2 = Some true /\
  pixel (mask_preprocess blob_map zero) 2 2 = Some true.
Proof.
  split; [reflexivity|]. split; [reflexivity|].
  apply (mask_preprocess_threshold_monotone blob_map zero half 2 2);
    reflexivity.
Defined.

(** X13 at a concrete input. *)
Lemma assemble_batches_witness :
  List.length [PyNdarray image_20x20] = List.length [[blob_map]] /\
  assemble findContours_blob unrepresentable_x86 field_config
    ([PyNdarray image_20x20] ++ [PyNdarray image_20x20])
    ([[blob_map]] ++ [[blob_map]]) =
  (out1 <- assemble findContours_blob unrepresentable_x86 field_config
             [PyNdarray image_20x20] [[blob_map]] ;;
   out2 <- assemble findContours_blob unrepresentable_x86 field_config
             [PyNdarray image_20x20] [[blob_map]] ;;
   Ok (out1 ++ out2)).
Proof.
  split; [reflexivity|].
  apply (assemble_batches findContours_blob unrepresentable_x86 field_config).
  reflexivity.
Defined.


(** X16 at a concrete input. *)
Lemma call_shape_unpacking_witness :
  List.length (shape {| shape := [20]; buffer := repeat 0 20 |}) = 1%nat /\
  call findContours_blob unrepresentable_x86 (forward_blob 1) field_config
    (PyNdarray {| shape := [20]; buffer := repeat 0 20 |}) = Raise ValueError.
Proof.
  split; [reflexivity|].
  apply (proj1 (call_shape_unpacking findContours_blob unrepresentable_x86
                  field_config (forward_blob 1)
                  {| shape := [20]; buffer := repeat 0 20 |}
                  [blob_map] [] eq_refl ltac:(simpl; lia))).
Defined.

Lemma model_state_keys : NoDup (map fst model_state).
Proof.
  repeat constructor; simpl; intros H;
    repeat (destruct H as [H|H]; [discriminate H|]); exact H.
Defined.


(** X18 at a concrete input. *)
Lemma load_pretrain_model_values_witness :
  load_pretrain_model checkpoint model_state =
  Ok ([("conv.weight"%string, conv_weight_trained);
       ("head.bias"%string, head_bias)],
      [not_loaded_message "head.bias"%string]) /\
  dict_getitem [("conv.weight"%string, conv_weight_trained);
                ("head.bias"%string, head_bias)] "extra.weight"%string =
  Raise KeyError.
Proof.
  assert (H : load_pretrain_model checkpoint model_state =
              Ok ([("conv.weight"%string, conv_weight_trained);
                   ("head.bias"%string, head_bias)],
                  [not_loaded_message "head.bias"%string]))
    by (vm_compute; reflexivity).
  split; [exact H|].
  rewrite (load_pretrain_model_values checkpoint model_state _ _
             model_state_keys H "extra.weight"%string).
  reflexivity.
Defined.

(** X19 at a concrete input. *)
Lemma load_pretrain_model_complete_witness :
  exists result,
    load_pretrain_model
      [("head.bias"%string, head_bias);
       ("conv.weight"%string, conv_weight_trained)] model_state =
    Ok (result, []) /\
    map fst result = map fst model_state /\
    forall key mine,
      dict_getitem model_state key = Ok mine ->
      dict_getitem result key =
      dict_getitem [("head.bias"%string, head_bias);
                    ("conv.weight"%string, conv_weight_trained)] key.
Proof.
  apply (load_pretrain_model_complete
           [("head.bias"%string, head_bias);
            ("conv.weight"%string, conv_weight_trained)]
           model_state model_state_keys).
  intros key mine. unfold model_state. cbn [dict_getitem].
  destruct (String.eqb_spec "conv.weight" key) as [<-|_].
  - intros [= <-]. exists conv_weight_trained. now split.
  - destruct (String.eqb_spec "head.bias" key) as [<-|_]; [|discriminate].
    intros [= <-]. exists head_bias. now split.
Defined.

(** X20 at a concrete input. *)
Lemma load_pretrain_model_idempotent_witness :
  load_pretrain_model checkpoint
    [("conv.weight"%string, conv_weight_trained);
     ("head.bias"%string, head_bias)] =
  Ok ([("conv.weight"%string, conv_weight_trained);
       ("head.bias"%string, head_bias)],
      [not_loaded_message "head.bias"%string]).
Proof.
  apply (load_pretrain_model_idempotent checkpoint model_state _ _
           model_state_keys).
  vm_compute. reflexivity.
Defined.

(** X21 at a concrete input. *)
Lemma load_pretrain_model_own_state_witness :
  load_pretrain_model model_state model_state = Ok (model_state, []).
Proof.
  apply (load_pretrain_model_own_state model_state model_state_keys).
Defined.

(** X24 at a concrete input. *)
Lemma FilesLimitControl_call_same_path_witness :
  let self := {| saved_weights_paths := ["w1.ckpt"; "w1.ckpt"]%string;
                 max_weights_to_save := 2 |} in
  fs_after (FilesLimitControl_call self weights_dir "w1.ckpt"%string) "w1.ckpt"%string = None
  /\ saved_weights_paths
       (control_after (FilesLimitControl_call self weights_dir "w1.ckpt"%string)) =
     ["w1.ckpt"; "w1.ckpt"]%string.
Proof.
  intros self.
  destruct (FilesLimitControl_call_same_path self weights_dir "w1.ckpt"%string
              ["w1.ckpt"%string] eq_refl ltac:(simpl; lia) eq_refl)
    as [H1 [H2 _]].
  split; [exact H1|exact H2].
Defined.

(** X25 at a concrete input. *)
Lemma FilesLimitControl_call_distinct_witness :
  let self := {| saved_weights_paths := ["w1.ckpt"; "w2.ckpt"]%string;
                 max_weights_to_save := 2 |} in
  let step := FilesLimitControl_call self weights_dir "w3.ckpt"%string in
  saved_weights_paths (control_after step) = ["w2.ckpt"; "w3.ckpt"]%string /\
  forall q, In q (saved_weights_paths (control_after step)) ->
            fs_after step q = weights_dir q.
Proof.
  intros self step. split; [reflexivity|].
  apply (FilesLimitControl_call_distinct self weights_dir "w3.ckpt"%string).
  - repeat constructor; simpl; intros H;
      repeat (destruct H as [H|H]; [discriminate H|]); exact H.
  - simpl. intros H.
    repeat (destruct H as [H|H]; [discriminate H|]); exact H.
Defined.

(** X26 at a concrete input. *)
Lemma FilesLimitControl_call_remove_fails_witness :
  let self := {| saved_weights_paths := ["runs"; "w1.ckpt"]%string;
                 max_weights_to_save := 2 |} in
  let step := FilesLimitControl_call self weights_dir "w2.ckpt"%string in
  step_raised step = Some (CollaboratorError "OSError") /\
  saved_weights_paths (control_after step) = ["w1.ckpt"; "w2.ckpt"]%string.
Proof.
  intros self step.
  destruct (FilesLimitControl_call_remove_fails self weights_dir "w2.ckpt"%string
              "runs"%string ["w1.ckpt"%string] eq_refl ltac:(simpl; lia) eq_refl)
    as [H1 [H2 _]].
  split; [exact H1|exact H2].
Defined.


(** X29 at a concrete input. *)
Lemma AverageMeter_constant_values_witness :
  meter_avg
    (AverageMeter_updates AverageMeter_reset
       (map (fun n => (PyInt 3, PyInt n)) [4; 1; 7])) =
  PyFloat (F64.of_int32 3).
Proof.
  apply (AverageMeter_constant_values 3 [4; 1; 7]); simpl; lia.
Defined.
